(** * QQuickTabBar: layout and selection synchronisation

    A shallow embedding of [src/quicktemplates2/qquicktabbar.cpp].

    Conventions of the embedding.
    - [qreal] is [double].  The first part embeds it as the exact
      rationals [Q] and settles what does not depend on how a sum or a
      quotient is rounded: which branch runs, which flag is set, which
      signal is emitted, which child is touched.  The second part, the
      module [F64], embeds [updateLayout] once more on IEEE 754 binary64
      values, with rounding, infinities and NaN, and settles what does:
      the widths handed to the children and the repetition of the layout.
    - [int] is embedded as [Z]; the counts that occur are lengths of the
      child collection, far below the 32-bit range.
    - A [QQuickItem *] is an address ([nat]) into an object store
      ([heap]); the child collection [contentModel] is the ordered list
      of addresses, so that object identity ([sender()], [indexOf], the
      vector [resizableItems]) is what it is in the source.
    - An [emit] appends the signal to the log [emitted] (most recent
      first).  The slots this file connects itself are called
      synchronously, as Qt does for direct connections.
    - Functions that can call back into themselves through a notification
      take a [fuel] bounding the nesting depth of the calls and return
      [None] when it is exhausted.
    - Receivers outside this file (bindings on the content size) and the
      bookkeeping of [itemAdded] and [itemRemoved] (culling, subscription,
      the deferred polish) are not modelled. *)

From Stdlib Require Import ZArith QArith Lia Lqa.
From stdpp Require Import base option list gmap.

(** ** Data model *)

(** An item of the scene graph, with the attributes this file reads or
    writes.  [isTabButton] tells whether [qobject_cast<QQuickTabButton *>]
    succeeds on it; [widthValid] is [QQuickItemPrivate::widthValid], the
    "an explicit width was set" flag. *)
Record QQuickItem := mkItem {
  isTabButton : bool;
  checked : bool;
  width : Q;
  implicitWidth : Q;
  implicitHeight : Q;
  widthValid : bool
}.

Definition item_set_checked (v : bool) (it : QQuickItem) : QQuickItem :=
  {| isTabButton := isTabButton it; checked := v; width := width it;
     implicitWidth := implicitWidth it; implicitHeight := implicitHeight it;
     widthValid := widthValid it |}.

Definition item_set_width (v : Q) (it : QQuickItem) : QQuickItem :=
  {| isTabButton := isTabButton it; checked := checked it; width := v;
     implicitWidth := implicitWidth it; implicitHeight := implicitHeight it;
     widthValid := widthValid it |}.

Definition item_set_implicitWidth (v : Q) (it : QQuickItem) : QQuickItem :=
  {| isTabButton := isTabButton it; checked := checked it; width := width it;
     implicitWidth := v; implicitHeight := implicitHeight it;
     widthValid := widthValid it |}.

Definition item_set_widthValid (v : bool) (it : QQuickItem) : QQuickItem :=
  {| isTabButton := isTabButton it; checked := checked it; width := width it;
     implicitWidth := implicitWidth it; implicitHeight := implicitHeight it;
     widthValid := v |}.

(** [QQuickTabBar::Position]. *)
Inductive Position := Header | Footer.

(** The signals of the control that this file emits or relies on. *)
Inductive Signal :=
| ContentWidthChanged
| ContentHeightChanged
| PositionChanged
| CurrentIndexChanged.

#[global] Instance Signal_eq_dec : EqDecision Signal.
Proof. solve_decision. Defined.

#[global] Instance Position_eq_dec : EqDecision Position.
Proof. solve_decision. Defined.

(** The control: the members of [QQuickTabBarPrivate] (lines 111-116),
    the members it inherits and uses ([contentModel], [contentItem],
    [currentIndex], [spacing], the component-complete flag), the object
    store and the signal log.  [contentItem] holds the width of the
    content item, the one attribute of it that the file reads; [None] is
    the null pointer. *)
Record TabBar := mkTabBar {
  heap : gmap nat QQuickItem;
  contentModel : list nat;
  contentItem : option Q;
  spacing : Q;
  currentIndex : Z;
  isComponentComplete : bool;
  updatingLayout : bool;
  hasContentWidth : bool;
  hasContentHeight : bool;
  contentWidth : Q;
  contentHeight : Q;
  position : Position;
  emitted : list Signal
}.

(** Field updates. *)
Definition set_heap (v : gmap nat QQuickItem) (d : TabBar) : TabBar :=
  {| heap := v; contentModel := contentModel d; contentItem := contentItem d;
     spacing := spacing d; currentIndex := currentIndex d;
     isComponentComplete := isComponentComplete d;
     updatingLayout := updatingLayout d;
     hasContentWidth := hasContentWidth d;
     hasContentHeight := hasContentHeight d; contentWidth := contentWidth d;
     contentHeight := contentHeight d; position := position d;
     emitted := emitted d |}.

Definition set_contentModel (v : list nat) (d : TabBar) : TabBar :=
  {| heap := heap d; contentModel := v; contentItem := contentItem d;
     spacing := spacing d; currentIndex := currentIndex d;
     isComponentComplete := isComponentComplete d;
     updatingLayout := updatingLayout d;
     hasContentWidth := hasContentWidth d;
     hasContentHeight := hasContentHeight d; contentWidth := contentWidth d;
     contentHeight := contentHeight d; position := position d;
     emitted := emitted d |}.

Definition set_contentItem (v : option Q) (d : TabBar) : TabBar :=
  {| heap := heap d; contentModel := contentModel d; contentItem := v;
     spacing := spacing d; currentIndex := currentIndex d;
     isComponentComplete := isComponentComplete d;
     updatingLayout := updatingLayout d;
     hasContentWidth := hasContentWidth d;
     hasContentHeight := hasContentHeight d; contentWidth := contentWidth d;
     contentHeight := contentHeight d; position := position d;
     emitted := emitted d |}.

Definition set_spacing (v : Q) (d : TabBar) : TabBar :=
  {| heap := heap d; contentModel := contentModel d;
     contentItem := contentItem d; spacing := v;
     currentIndex := currentIndex d;
     isComponentComplete := isComponentComplete d;
     updatingLayout := updatingLayout d;
     hasContentWidth := hasContentWidth d;
     hasContentHeight := hasContentHeight d; contentWidth := contentWidth d;
     contentHeight := contentHeight d; position := position d;
     emitted := emitted d |}.

Definition set_currentIndex (v : Z) (d : TabBar) : TabBar :=
  {| heap := heap d; contentModel := contentModel d;
     contentItem := contentItem d; spacing := spacing d; currentIndex := v;
     isComponentComplete := isComponentComplete d;
     updatingLayout := updatingLayout d;
     hasContentWidth := hasContentWidth d;
     hasContentHeight := hasContentHeight d; contentWidth := contentWidth d;
     contentHeight := contentHeight d; position := position d;
     emitted := emitted d |}.

Definition set_isComponentComplete (v : bool) (d : TabBar) : TabBar :=
  {| heap := heap d; contentModel := contentModel d;
     contentItem := contentItem d; spacing := spacing d;
     currentIndex := currentIndex d; isComponentComplete := v;
     updatingLayout := updatingLayout d;
     hasContentWidth := hasContentWidth d;
     hasContentHeight := hasContentHeight d; contentWidth := contentWidth d;
     contentHeight := contentHeight d; position := position d;
     emitted := emitted d |}.

Definition set_updatingLayout (v : bool) (d : TabBar) : TabBar :=
  {| heap := heap d; contentModel := contentModel d;
     contentItem := contentItem d; spacing := spacing d;
     currentIndex := currentIndex d;
     isComponentComplete := isComponentComplete d; updatingLayout := v;
     hasContentWidth := hasContentWidth d;
     hasContentHeight := hasContentHeight d; contentWidth := contentWidth d;
     contentHeight := contentHeight d; position := position d;
     emitted := emitted d |}.

Definition set_hasContentWidth (v : bool) (d : TabBar) : TabBar :=
  {| heap := heap d; contentModel := contentModel d;
     contentItem := contentItem d; spacing := spacing d;
     currentIndex := currentIndex d;
     isComponentComplete := isComponentComplete d;
     updatingLayout := updatingLayout d; hasContentWidth := v;
     hasContentHeight := hasContentHeight d; contentWidth := contentWidth d;
     contentHeight := contentHeight d; position := position d;
     emitted := emitted d |}.

Definition set_hasContentHeight (v : bool) (d : TabBar) : TabBar :=
  {| heap := heap d; contentModel := contentModel d;
     contentItem := contentItem d; spacing := spacing d;
     currentIndex := currentIndex d;
     isComponentComplete := isComponentComplete d;
     updatingLayout := updatingLayout d;
     hasContentWidth := hasContentWidth d; hasContentHeight := v;
     contentWidth := contentWidth d; contentHeight := contentHeight d;
     position := position d; emitted := emitted d |}.

Definition set_contentWidth (v : Q) (d : TabBar) : TabBar :=
  {| heap := heap d; contentModel := contentModel d;
     contentItem := contentItem d; spacing := spacing d;
     currentIndex := currentIndex d;
     isComponentComplete := isComponentComplete d;
     updatingLayout := updatingLayout d;
     hasContentWidth := hasContentWidth d;
     hasContentHeight := hasContentHeight d; contentWidth := v;
     contentHeight := contentHeight d; position := position d;
     emitted := emitted d |}.

Definition set_contentHeight (v : Q) (d : TabBar) : TabBar :=
  {| heap := heap d; contentModel := contentModel d;
     contentItem := contentItem d; spacing := spacing d;
     currentIndex := currentIndex d;
     isComponentComplete := isComponentComplete d;
     updatingLayout := updatingLayout d;
     hasContentWidth := hasContentWidth d;
     hasContentHeight := hasContentHeight d; contentWidth := contentWidth d;
     contentHeight := v; position := position d; emitted := emitted d |}.

Definition set_position (v : Position) (d : TabBar) : TabBar :=
  {| heap := heap d; contentModel := contentModel d;
     contentItem := contentItem d; spacing := spacing d;
     currentIndex := currentIndex d;
     isComponentComplete := isComponentComplete d;
     updatingLayout := updatingLayout d;
     hasContentWidth := hasContentWidth d;
     hasContentHeight := hasContentHeight d; contentWidth := contentWidth d;
     contentHeight := contentHeight d; position := v; emitted := emitted d |}.

Definition set_emitted (v : list Signal) (d : TabBar) : TabBar :=
  {| heap := heap d; contentModel := contentModel d;
     contentItem := contentItem d; spacing := spacing d;
     currentIndex := currentIndex d;
     isComponentComplete := isComponentComplete d;
     updatingLayout := updatingLayout d;
     hasContentWidth := hasContentWidth d;
     hasContentHeight := hasContentHeight d; contentWidth := contentWidth d;
     contentHeight := contentHeight d; position := position d; emitted := v |}.

Definition emit (s : Signal) (d : TabBar) : TabBar :=
  set_emitted (s :: emitted d) d.

(** The state a freshly constructed control starts from
    ([QQuickTabBarPrivate::QQuickTabBarPrivate], lines 119-128), over a
    given object store. *)
Definition newTabBar (h : gmap nat QQuickItem) : TabBar :=
  {| heap := h; contentModel := []; contentItem := None; spacing := 0;
     currentIndex := (-1)%Z; isComponentComplete := false;
     updatingLayout := false; hasContentWidth := false;
     hasContentHeight := false; contentWidth := 0; contentHeight := 0;
     position := Header; emitted := [] |}.

(** ** Numeric helpers of QtGlobal, on exact rationals *)

(** Modelled from the spec: [qMax], [qMin], [qAbs] and [qFuzzyCompare]
    come from QtCore's [qglobal.h], which is not part of this repository;
    the spec calls the last one "an approximate/tolerant equality".  They
    are written as QtCore defines them for [double]:
    [qMax(a,b) = (a < b) ? b : a], [qMin(a,b) = (a < b) ? a : b],
    [qAbs(t) = (t >= 0) ? t : -t] and
    [qFuzzyCompare(p1,p2) = (qAbs(p1 - p2) * 1000000000000. <= qMin(qAbs(p1), qAbs(p2)))]. *)
Definition Qlt_bool (a b : Q) : bool := negb (Qle_bool b a).

Definition qMax (a b : Q) : Q := if Qlt_bool a b then b else a.

Definition qMin (a b : Q) : Q := if Qlt_bool a b then a else b.

Definition qAbs (t : Q) : Q := if Qle_bool 0 t then t else (- t)%Q.

Definition qFuzzyCompare (p1 p2 : Q) : bool :=
  Qle_bool (qAbs (p1 - p2) * 1000000000000) (qMin (qAbs p1) (qAbs p2)).

(** ** The collaborators: child collection and items *)

(** Modelled from the spec: [QQuickContainer::itemAt] and the object
    model behind it ([count], [get], [indexOf]) live in
    qquickcontainer.cpp and in QtQml, not in src.  The spec gives the
    collection "count, get-by-index, index-of", with [get(index) -> Item?]
    and [indexOf(item) -> index?]; a miss is the null pointer for [get]
    and [-1] for [indexOf].  An address with no object behind it is
    handed out as null. *)
Definition count (d : TabBar) : Z := Z.of_nat (length (contentModel d)).

Definition itemAt (d : TabBar) (i : nat) : option (nat * QQuickItem) :=
  p ← contentModel d !! i; it ← heap d !! p; Some (p, it).

Definition get (d : TabBar) (index : Z) : option nat :=
  if (index <? 0)%Z then None else contentModel d !! Z.to_nat index.

Fixpoint indexOf_from (l : list nat) (p : nat) (i : Z) : Z :=
  match l with
  | [] => (-1)%Z
  | x :: r => if decide (x = p) then i else indexOf_from r p (i + 1)%Z
  end.

Definition indexOf (d : TabBar) (p : nat) : Z :=
  indexOf_from (contentModel d) p 0%Z.

(** [qobject_cast<QQuickTabButton *>(o)]: the address if a tab button
    lives there, null otherwise (also for a null [o]). *)
Definition tabButton_cast (d : TabBar) (o : option nat) : option nat :=
  p ← o; it ← heap d !! p; if isTabButton it then Some p else None.

(** Modelled from the spec: [QQuickItem::setWidth] is QtQuick's.  The
    spec has a "writable [width] with an associated was-this-explicitly-set
    flag" whose assignment "synchronously fires that child's own
    geometry-changed notification", and says that an explicit resize sets
    the flag "through the normal width-setter path".  So the setter sets
    the flag, stores the width and, when the width changed, delivers the
    notification to the listener [geometryChanged] (the control registers
    itself for [Geometry] changes, line 127).  The verification only uses
    that the listener does nothing under the guard, so it does not depend
    on whether an unchanged width is announced. *)
Definition setWidth (geometryChanged : nat → TabBar → option TabBar)
    (p : nat) (w : Q) (d : TabBar) : option TabBar :=
  match heap d !! p with
  | None => Some d
  | Some it =>
      if Qeq_bool (width it) w
      then Some (set_heap (<[p := item_set_widthValid true it]> (heap d)) d)
      else geometryChanged p
             (set_heap
                (<[p := item_set_width w (item_set_widthValid true it)]>
                   (heap d)) d)
  end.

(** [QQuickItemPrivate::get(item)->widthValid = false] (line 183). *)
Definition clearWidthValid (p : nat) (d : TabBar) : TabBar :=
  set_heap (alter (item_set_widthValid false) p (heap d)) d.

(** ** The layout engine: [QQuickTabBarPrivate::updateLayout] *)

(** The locals of lines 152-156. *)
Record Measure := mkMeasure {
  maxHeight : Q;
  totalWidth : Q;
  reservedWidth : Q;
  resizableItems : list nat
}.

(** Lines 162-170: what a non-null [item] adds to the locals. *)
Definition accumulate (m : Measure) (p : nat) (it : QQuickItem) : Measure :=
  if negb (widthValid it) then
    {| maxHeight := qMax (maxHeight m) (implicitHeight it);
       totalWidth := totalWidth m + implicitWidth it;
       reservedWidth := reservedWidth m;
       resizableItems := resizableItems m ++ [p] |}
  else
    {| maxHeight := qMax (maxHeight m) (implicitHeight it);
       totalWidth := totalWidth m + width it;
       reservedWidth := reservedWidth m + width it;
       resizableItems := resizableItems m |}.

(** The body of the first loop (lines 160-171) at index [i]. *)
Definition measureItem (d : TabBar) (m : Measure) (i : nat) : Measure :=
  match itemAt d i with
  | Some (p, it) => accumulate m p it
  | None => m
  end.

(** Lines 152-172: [for (int i = 0; i < count; ++i)]. *)
Definition measure (d : TabBar) : Measure :=
  fold_left (measureItem d) (seq 0 (length (contentModel d)))
    {| maxHeight := 0; totalWidth := 0; reservedWidth := 0;
       resizableItems := [] |}.

(** Line 174: [qMax(0, count - 1) * spacing]. *)
Definition totalSpacing (d : TabBar) : Q :=
  inject_Z (Z.max 0 (count d - 1)) * spacing d.

(** Line 178, for a content item of width [cw]. *)
Definition itemWidth (d : TabBar) (cw : Q) : Q :=
  (cw - reservedWidth (measure d) - totalSpacing d)
  / inject_Z (Z.of_nat (length (resizableItems (measure d)))).

(** Lines 181-184: the loop over [resizableItems]. *)
Fixpoint assignWidths (geometryChanged : nat → TabBar → option TabBar)
    (w : Q) (items : list nat) (d : TabBar) : option TabBar :=
  match items with
  | [] => Some d
  | p :: rest =>
      d1 ← setWidth geometryChanged p w d;
      assignWidths geometryChanged w rest (clearWidthValid p d1)
  end.

(** Lines 177-186. *)
Definition resizeItems (geometryChanged : nat → TabBar → option TabBar)
    (cw : Q) (d : TabBar) : option TabBar :=
  match resizableItems (measure d) with
  | [] => Some d
  | items =>
      d1 ← assignWidths geometryChanged (itemWidth d cw) items
             (set_updatingLayout true d);
      Some (set_updatingLayout false d1)
  end.

(** Lines 188-203: publish the derived content size. *)
Definition publishContentSize (tw mh : Q) (d : TabBar) : TabBar :=
  let contentWidthChange :=
    negb (hasContentWidth d) && negb (qFuzzyCompare (contentWidth d) tw) in
  let d1 := if contentWidthChange then set_contentWidth tw d else d in
  let contentHeightChange :=
    negb (hasContentHeight d1) && negb (qFuzzyCompare (contentHeight d1) mh) in
  let d2 := if contentHeightChange then set_contentHeight mh d1 else d1 in
  let d3 := if contentWidthChange then emit ContentWidthChanged d2 else d2 in
  if contentHeightChange then emit ContentHeightChanged d3 else d3.

(** The whole function, open in the listener that a child's
    geometry-changed notification reaches. *)
Definition updateLayout_body
    (geometryChanged : nat → TabBar → option TabBar) (d : TabBar)
    : option TabBar :=
  if (count d <=? 0)%Z then Some d else
  match contentItem d with
  | None => Some d
  | Some cw =>
      let m := measure d in
      let tw := (totalWidth m + totalSpacing d)%Q in
      d1 ← resizeItems geometryChanged cw d;
      Some (publishContentSize tw (maxHeight m) d1)
  end.

(** The same function with the receivers of its two signals made
    explicit, to observe the guard from outside: [emit] logs the signal
    and hands the state to [receive] (lines 200-203), as the loop hands it
    to [geometryChanged] (line 182). *)
Definition publishContentSize_observed
    (receive : Signal → TabBar → option TabBar) (tw mh : Q) (d : TabBar)
    : option TabBar :=
  let contentWidthChange :=
    negb (hasContentWidth d) && negb (qFuzzyCompare (contentWidth d) tw) in
  let d1 := if contentWidthChange then set_contentWidth tw d else d in
  let contentHeightChange :=
    negb (hasContentHeight d1) && negb (qFuzzyCompare (contentHeight d1) mh) in
  let d2 := if contentHeightChange then set_contentHeight mh d1 else d1 in
  d3 ← (if contentWidthChange
        then receive ContentWidthChanged (emit ContentWidthChanged d2)
        else Some d2);
  if contentHeightChange
  then receive ContentHeightChanged (emit ContentHeightChanged d3)
  else Some d3.

Definition updateLayout_observed
    (geometryChanged : nat → TabBar → option TabBar)
    (receive : Signal → TabBar → option TabBar) (d : TabBar)
    : option TabBar :=
  if (count d <=? 0)%Z then Some d else
  match contentItem d with
  | None => Some d
  | Some cw =>
      let m := measure d in
      let tw := (totalWidth m + totalSpacing d)%Q in
      d1 ← resizeItems geometryChanged cw d;
      publishContentSize_observed receive tw (maxHeight m) d1
  end.

(** [updateLayout] and [itemGeometryChanged] (lines 206-210) call each
    other: [fuel] bounds the nesting of [updateLayout] activations. *)
Fixpoint updateLayout (fuel : nat) (d : TabBar) : option TabBar :=
  match fuel with
  | O => None
  | S n =>
      updateLayout_body
        (λ _ d', if updatingLayout d' then Some d' else updateLayout n d') d
  end.

Definition itemGeometryChanged (fuel : nat) (item : nat) (d : TabBar)
    : option TabBar :=
  if negb (updatingLayout d) then updateLayout fuel d else Some d.

(** Lines 212-222. *)
Definition itemImplicitWidthChanged (fuel : nat) (item : nat) (d : TabBar)
    : option TabBar :=
  if negb (updatingLayout d) && negb (hasContentWidth d)
  then updateLayout fuel d else Some d.

Definition itemImplicitHeightChanged (fuel : nat) (item : nat) (d : TabBar)
    : option TabBar :=
  if negb (updatingLayout d) && negb (hasContentHeight d)
  then updateLayout fuel d else Some d.

(** ** Selection synchronisation *)

(** Modelled from the spec: the single-true-flag contract of the tab
    buttons.  The spec keeps "at most one child" checked at a time and
    expects that "the previously-checked item ... clear its own flag as a
    consequence" of another one becoming checked.  When the button at [p]
    has become checked, every other checked tab button of the collection
    [group] is unchecked, each announcing its change to the listener. *)
Fixpoint uncheckOthers (checkedChanged : nat → TabBar → option TabBar)
    (p : nat) (group : list nat) (d : TabBar) : option TabBar :=
  match group with
  | [] => Some d
  | q :: rest =>
      d1 ← (if decide (q = p) then Some d
            else
              match heap d !! q with
              | Some it =>
                  if isTabButton it && checked it
                  then checkedChanged q
                         (set_heap (<[q := item_set_checked false it]> (heap d))
                            d)
                  else Some d
              | None => Some d
              end);
      uncheckOthers checkedChanged p rest d1
  end.

(** Modelled from the spec: [QQuickAbstractButton::setChecked] lives in
    qquickabstractbutton.cpp, not in src.  The spec gives the button "a
    boolean [checked] property with change notification, and a settable
    form", under the single-true-flag contract: the setter stores the
    flag and, when it changed, first has the other buttons of the
    collection unchecked if the flag is now true, then delivers
    [checkedChanged] to the listener.  [itemAdded] (line 378) subscribes
    [updateCurrentIndex] to every tab button of the collection, and the
    buttons that reach this setter are fetched from the collection. *)
Definition setChecked (checkedChanged : nat → TabBar → option TabBar)
    (p : nat) (v : bool) (d : TabBar) : option TabBar :=
  match heap d !! p with
  | None => Some d
  | Some it =>
      if Bool.eqb (checked it) v then Some d
      else
        let d1 := set_heap (<[p := item_set_checked v it]> (heap d)) d in
        d2 ← (if v then uncheckOthers checkedChanged p (contentModel d1) d1
              else Some d1);
        checkedChanged p d2
  end.

Definition isChecked (d : TabBar) (p : nat) : bool :=
  match heap d !! p with
  | Some it => checked it
  | None => false
  end.

(** Modelled from the spec: [QQuickContainer::setCurrentIndex] lives in
    qquickcontainer.cpp, not in src.  The spec: "if different from the
    current value, set [currentIndex] to it"; the change is announced by
    [currentIndexChanged], which the constructor (line 229) connects to
    [updateCurrentItem]. *)
Definition setCurrentIndex (currentIndexChanged : TabBar → option TabBar)
    (index : Z) (d : TabBar) : option TabBar :=
  if (currentIndex d =? index)%Z then Some d
  else currentIndexChanged (emit CurrentIndexChanged (set_currentIndex index d)).

(** Lines 130-135, open in the setter of the button. *)
Definition updateCurrentItem_body
    (setChecked' : nat → bool → TabBar → option TabBar) (d : TabBar)
    : option TabBar :=
  match tabButton_cast d (get d (currentIndex d)) with
  | Some button => setChecked' button true d
  | None => Some d
  end.

(** Lines 137-143, open in the setter of the index; [sender] is
    [q->sender()]. *)
Definition updateCurrentIndex_body
    (setCurrentIndex' : Z → TabBar → option TabBar) (sender : option nat)
    (d : TabBar) : option TabBar :=
  match tabButton_cast d sender with
  | Some button =>
      if isChecked d button then setCurrentIndex' (indexOf d button) d
      else Some d
  | None => Some d
  end.

(** The two slots call each other through the two setters: [fuel] bounds
    the nesting of [updateCurrentItem] activations. *)
Fixpoint updateCurrentItem (fuel : nat) (d : TabBar) : option TabBar :=
  match fuel with
  | O => None
  | S n =>
      updateCurrentItem_body
        (setChecked
           (λ p, updateCurrentIndex_body
                   (setCurrentIndex (updateCurrentItem n)) (Some p))) d
  end.

Definition updateCurrentIndex (fuel : nat) (sender : option nat) (d : TabBar)
    : option TabBar :=
  updateCurrentIndex_body (setCurrentIndex (updateCurrentItem fuel)) sender d.

(** ** The facade: [QQuickTabBar] *)

(** Lines 254-262. *)
Definition setPosition (p : Position) (d : TabBar) : TabBar :=
  if decide (position d = p) then d
  else emit PositionChanged (set_position p d).

(** Lines 283-292. *)
Definition setContentWidth (w : Q) (d : TabBar) : TabBar :=
  let d1 := set_hasContentWidth true d in
  if qFuzzyCompare (contentWidth d1) w then d1
  else emit ContentWidthChanged (set_contentWidth w d1).

(** Lines 294-303. *)
Definition resetContentWidth (fuel : nat) (d : TabBar) : option TabBar :=
  if negb (hasContentWidth d) then Some d
  else
    let d1 := set_hasContentWidth false d in
    if isComponentComplete d1 then updateLayout fuel d1 else Some d1.

(** Lines 323-332. *)
Definition setContentHeight (h : Q) (d : TabBar) : TabBar :=
  let d1 := set_hasContentHeight true d in
  if qFuzzyCompare (contentHeight d1) h then d1
  else emit ContentHeightChanged (set_contentHeight h d1).

(** Lines 334-343. *)
Definition resetContentHeight (fuel : nat) (d : TabBar) : option TabBar :=
  if negb (hasContentHeight d) then Some d
  else
    let d1 := set_hasContentHeight false d in
    if isComponentComplete d1 then updateLayout fuel d1 else Some d1.

(** Lines 345-350; the base class's polish does not touch this state. *)
Definition updatePolish (fuel : nat) (d : TabBar) : option TabBar :=
  updateLayout fuel d.

(** Lines 352-358; the base class marks the component complete. *)
Definition componentComplete (lfuel sfuel : nat) (d : TabBar) : option TabBar :=
  d1 ← updateCurrentItem sfuel (set_isComponentComplete true d);
  updateLayout lfuel d1.

(** Lines 360-365; the new geometry itself is the environment's. *)
Definition geometryChanged (fuel : nat) (d : TabBar) : option TabBar :=
  updateLayout fuel d.

(** ** Event sequences *)

(** What can happen to the control between two returns to the event
    loop: one of the triggers of this file, or a change made by the
    collaborators to the objects, the collection, the content item or
    the spacing ([EvEnvironment]; it cannot reach the private guard). *)
Inductive Event :=
| EvItemGeometryChanged (item : nat)
| EvItemImplicitWidthChanged (item : nat)
| EvItemImplicitHeightChanged (item : nat)
| EvUpdatePolish
| EvComponentComplete
| EvGeometryChanged
| EvSetContentWidth (w : Q)
| EvResetContentWidth
| EvSetContentHeight (h : Q)
| EvResetContentHeight
| EvSetPosition (p : Position)
| EvCheckedChanged (sender : nat)
| EvSetCurrentIndex (index : Z)
| EvEnvironment (h : gmap nat QQuickItem) (children : list nat)
    (ci : option Q) (sp : Q).

Definition handle (lfuel sfuel : nat) (e : Event) (d : TabBar)
    : option TabBar :=
  match e with
  | EvItemGeometryChanged item => itemGeometryChanged lfuel item d
  | EvItemImplicitWidthChanged item => itemImplicitWidthChanged lfuel item d
  | EvItemImplicitHeightChanged item => itemImplicitHeightChanged lfuel item d
  | EvUpdatePolish => updatePolish lfuel d
  | EvComponentComplete => componentComplete lfuel sfuel d
  | EvGeometryChanged => geometryChanged lfuel d
  | EvSetContentWidth w => Some (setContentWidth w d)
  | EvResetContentWidth => resetContentWidth lfuel d
  | EvSetContentHeight h => Some (setContentHeight h d)
  | EvResetContentHeight => resetContentHeight lfuel d
  | EvSetPosition p => Some (setPosition p d)
  | EvCheckedChanged sender => updateCurrentIndex sfuel (Some sender) d
  | EvSetCurrentIndex index =>
      setCurrentIndex (updateCurrentItem sfuel) index d
  | EvEnvironment h children ci sp =>
      Some (set_spacing sp (set_contentItem ci
              (set_contentModel children (set_heap h d))))
  end.

Fixpoint run (lfuel sfuel : nat) (evs : list Event) (d : TabBar)
    : option TabBar :=
  match evs with
  | [] => Some d
  | e :: rest => d1 ← handle lfuel sfuel e d; run lfuel sfuel rest d1
  end.

(** ** The program as a function of the state

    The functions above thread an option through the listeners.  The
    functions of this part say which state they return; the verification
    part proves that they do. *)

(** A listener that does nothing while the guard is up. *)
Definition guarded (gc : nat → TabBar → option TabBar) : Prop :=
  ∀ p d, updatingLayout d = true → gc p d = Some d.

(** What one turn of the loop (lines 182-183) leaves of an item. *)
Definition resized (w : Q) (it : QQuickItem) : QQuickItem :=
  item_set_widthValid false
    (if Qeq_bool (width it) w then it else item_set_width w it).

(** The object store after the loop over [items]. *)
Definition resizeAll (w : Q) (items : list nat) (h : gmap nat QQuickItem)
    : gmap nat QQuickItem :=
  fold_left (λ h p, alter (resized w) p h) items h.

(** Lines 177-186 written without the listener: under the guard the
    notifications of the loop change nothing. *)
Definition applyResize (w : Q) (items : list nat) (d : TabBar) : TabBar :=
  match items with
  | [] => d
  | _ => set_updatingLayout false (set_heap (resizeAll w items (heap d)) d)
  end.

Definition resizedState (cw : Q) (d : TabBar) : TabBar :=
  applyResize (itemWidth d cw) (resizableItems (measure d)) d.

(** The state [updateLayout] returns in. *)
Definition layout (d : TabBar) : TabBar :=
  if (count d <=? 0)%Z then d else
  match contentItem d with
  | None => d
  | Some cw =>
      publishContentSize (totalWidth (measure d) + totalSpacing d)
        (maxHeight (measure d)) (resizedState cw d)
  end.

(** The first loop of [updateLayout], read off the addresses of the
    collection instead of its indices. *)
Definition measurePtr (h : gmap nat QQuickItem) (m : Measure) (p : nat)
    : Measure :=
  match h !! p with
  | Some it => accumulate m p it
  | None => m
  end.

(** A live child without an explicit width. *)
Definition isResizable (h : gmap nat QQuickItem) (p : nat) : bool :=
  match h !! p with
  | Some it => negb (widthValid it)
  | None => false
  end.

(** The locals as initialised in lines 152-156. *)
Definition measure0 : Measure :=
  {| maxHeight := 0; totalWidth := 0; reservedWidth := 0;
     resizableItems := [] |}.

(** What [uncheckOthers] leaves of an object, and of the object store. *)
Definition unchecked (it : QQuickItem) : QQuickItem :=
  if isTabButton it then item_set_checked false it else it.

Definition exclusiveHeap (p : nat) (group : list nat)
    (h : gmap nat QQuickItem) : gmap nat QQuickItem :=
  fold_left (λ h q, if decide (q = p) then h else alter unchecked q h)
    group h.

(** The button at the current index checked, the other buttons of the
    collection unchecked. *)
Definition checkButton (p : nat) (d : TabBar) : TabBar :=
  match heap d !! p with
  | Some it =>
      set_heap
        (exclusiveHeap p (contentModel d)
           (<[p := item_set_checked true it]> (heap d))) d
  | None => d
  end.

(** The state [updateCurrentItem] returns in, with the signal cascade
    [setChecked] -> [updateCurrentIndex] -> [setCurrentIndex] ->
    [updateCurrentItem] unfolded: it stops at the second activation. *)
Definition selectItem (d : TabBar) : TabBar :=
  match tabButton_cast d (get d (currentIndex d)) with
  | None => d
  | Some p =>
      if isChecked d p then d
      else
        let d1 := checkButton p d in
        if (currentIndex d1 =? indexOf d1 p)%Z then d1
        else emit CurrentIndexChanged (set_currentIndex (indexOf d1 p) d1)
  end.

(** The state [updateCurrentIndex] returns in. *)
Definition selectIndex (sender : option nat) (d : TabBar) : TabBar :=
  match tabButton_cast d sender with
  | Some button =>
      if isChecked d button then
        if (currentIndex d =? indexOf d button)%Z then d
        else emit CurrentIndexChanged (set_currentIndex (indexOf d button) d)
      else d
  | None => d
  end.

(** The state [handle] returns in. *)
Definition step (e : Event) (d : TabBar) : TabBar :=
  match e with
  | EvItemGeometryChanged _ => if negb (updatingLayout d) then layout d else d
  | EvItemImplicitWidthChanged _ =>
      if negb (updatingLayout d) && negb (hasContentWidth d)
      then layout d else d
  | EvItemImplicitHeightChanged _ =>
      if negb (updatingLayout d) && negb (hasContentHeight d)
      then layout d else d
  | EvUpdatePolish | EvGeometryChanged => layout d
  | EvComponentComplete =>
      layout (selectItem (set_isComponentComplete true d))
  | EvSetContentWidth w => setContentWidth w d
  | EvResetContentWidth =>
      if negb (hasContentWidth d) then d
      else if isComponentComplete d
           then layout (set_hasContentWidth false d)
           else set_hasContentWidth false d
  | EvSetContentHeight h => setContentHeight h d
  | EvResetContentHeight =>
      if negb (hasContentHeight d) then d
      else if isComponentComplete d
           then layout (set_hasContentHeight false d)
           else set_hasContentHeight false d
  | EvSetPosition p => setPosition p d
  | EvCheckedChanged sender => selectIndex (Some sender) d
  | EvSetCurrentIndex index =>
      if (currentIndex d =? index)%Z then d
      else selectItem (emit CurrentIndexChanged (set_currentIndex index d))
  | EvEnvironment h children ci sp =>
      set_spacing sp (set_contentItem ci
        (set_contentModel children (set_heap h d)))
  end.

(** ** Observations *)

(** The width of the child at address [p]. *)
Definition widthOf (d : TabBar) (p : nat) : Q :=
  match heap d !! p with
  | Some it => width it
  | None => 0
  end.

(** What an observer of the content width sees: the override flag, the
    stored value and the notifications sent so far. *)
Definition widthView (d : TabBar) : bool * Q * list Signal :=
  (hasContentWidth d, contentWidth d,
   filter (λ s, s = ContentWidthChanged) (emitted d)).

Definition heightView (d : TabBar) : bool * Q * list Signal :=
  (hasContentHeight d, contentHeight d,
   filter (λ s, s = ContentHeightChanged) (emitted d)).

Definition touchesContentWidth (e : Event) : bool :=
  match e with
  | EvSetContentWidth _ | EvResetContentWidth => true
  | _ => false
  end.

Definition touchesContentHeight (e : Event) : bool :=
  match e with
  | EvSetContentHeight _ | EvResetContentHeight => true
  | _ => false
  end.

(** The total width [updateLayout] derives from the children. *)
Definition derivedWidth (d : TabBar) : Q :=
  (totalWidth (measure d) + totalSpacing d)%Q.

Definition derivedHeight (d : TabBar) : Q := maxHeight (measure d).

(** ** Example states *)

Definition tabButton (iw : Q) : QQuickItem :=
  {| isTabButton := true; checked := false; width := 0; implicitWidth := iw;
     implicitHeight := 20; widthValid := false |}.

(** Three tab buttons of implicit widths 50, 60 and 70 at the addresses
    1, 2 and 3. *)
Definition threeButtons : gmap nat QQuickItem :=
  <[1%nat := tabButton 50]> (<[2%nat := tabButton 60]>
    (<[3%nat := tabButton 70]> ∅)).

(** A freshly constructed control. *)
Definition emptyBar : TabBar := newTabBar ∅.

(** The three buttons in a control of spacing 10 whose content item is
    300 wide, before any layout ran. *)
Definition threeBar : TabBar :=
  step (EvEnvironment threeButtons [1; 2; 3]%nat (Some 300%Q) 10%Q) emptyBar.

(** The same with a content item of width 10: less than the spacing. *)
Definition narrowBar : TabBar := set_contentItem (Some 10%Q) threeBar.

(** A fourth child at address 4 with an explicit width of 40. *)
Definition fixedButton : QQuickItem :=
  item_set_width 40 (item_set_widthValid true (tabButton 40)).

Definition fourBar : TabBar :=
  step (EvEnvironment (<[4%nat := fixedButton]> threeButtons)
          [1; 2; 3; 4]%nat (Some 300%Q) 10%Q) emptyBar.

(** A control that completed construction empty and then received the
    three buttons: the relayout requested by the additions has not run
    yet, so the stored content width (0) is stale. *)
Definition staleBar : TabBar :=
  step (EvEnvironment threeButtons [1; 2; 3]%nat (Some 300%Q) 10%Q)
    (step EvComponentComplete emptyBar).

(** The three buttons with the third one checked, current index still
    at its initial -1. *)
Definition clickedBar : TabBar :=
  set_heap (<[3%nat := item_set_checked true (tabButton 70)]> threeButtons)
    threeBar.

(** The three buttons with the current index moved to 1 and the slot not
    yet synchronised. *)
Definition indexedBar : TabBar := set_currentIndex 1 threeBar.

(** The third button checked and the current index moved to 1, the slot
    of the second button. *)
Definition reselectBar : TabBar := set_currentIndex 1 clickedBar.

(** ** Further observations *)

Definition item_set_implicitHeight (v : Q) (it : QQuickItem) : QQuickItem :=
  {| isTabButton := isTabButton it; checked := checked it; width := width it;
     implicitWidth := implicitWidth it; implicitHeight := v;
     widthValid := widthValid it |}.

(** The notifications of one kind sent so far. *)
Definition sent (s : Signal) (d : TabBar) : list Signal :=
  filter (λ x, x = s) (emitted d).

(** A stored value and its notification move together between two
    states: either both are as before, or the value changed and exactly
    one notification was added. *)
Definition announced {A} (value : TabBar → A) (s : Signal) (d d' : TabBar)
    : Prop :=
  (value d' = value d ∧ sent s d' = sent s d)
  ∨ (value d' ≠ value d ∧ sent s d' = s :: sent s d).

(** The weaker discipline that does not look at what was stored: either
    value and log are as before, or exactly one notification was added. *)
Definition notified {A} (value : TabBar → A) (s : Signal) (d d' : TabBar)
    : Prop :=
  (value d' = value d ∧ sent s d' = sent s d) ∨ sent s d' = s :: sent s d.

(** The slot at the current index needs no synchronisation: it holds no
    tab button, or a checked one. *)
Definition currentItemSynced (d : TabBar) : Prop :=
  match tabButton_cast d (get d (currentIndex d)) with
  | Some p => isChecked d p = true
  | None => True
  end.

(** The three buttons in a control whose content size was overridden
    to 120 by 30 and which was laid out since. *)
Definition overriddenBar : TabBar :=
  step EvUpdatePolish
    (setContentHeight 30 (setContentWidth 120 threeBar)).

(** The third button checked but no longer in the collection. *)
Definition orphanBar : TabBar :=
  set_currentIndex 0 (set_contentModel [1; 2]%nat clickedBar).

(** The three buttons in a control whose guard is up, as [updateLayout]
    has it in the middle of its loop. *)
Definition guardedBar : TabBar := set_updatingLayout true threeBar.

(** * The layout in double arithmetic

    [qreal] is [double].  The definitions above compute on exact
    rationals, which is enough wherever a property does not depend on
    how a sum or a quotient is rounded.  Two questions do: whether the
    widths [updateLayout] hands out add up to the width of the content
    item, and whether the tolerant comparison of lines 188-189 recognises
    the value the previous call stored.  The module [F64] embeds the path
    of [updateLayout] once more, on IEEE 754 binary64 values. *)
Module F64.

(** ** IEEE 754 binary64 *)

(** A [double]: a finite value, given by the rational it denotes, an
    infinity with its sign, or a NaN.  The two zeros are identified and
    so are the NaNs: the code never divides by a [double] that can be
    zero and never looks at a sign bit or a payload.  The operations are
    the correctly rounded ones of IEEE 754 in the default rounding mode
    (to nearest, ties to even), with gradual underflow and overflow to
    infinity: each rounds its exact result, so whatever rational a state
    holds in a [Finite], what is computed from it is a double. *)
Inductive double :=
| Finite (q : Q)
| Infinite (negative : bool)
| NaN.

(** [2 ^ e] as a rational. *)
Definition pow2 (e : Z) : Q :=
  if (0 <=? e)%Z then inject_Z (2 ^ e) else 1 # Z.to_pos (2 ^ (- e)).

(** The exponent of the binade of [n / d]: the [e] with
    [2 ^ e <= n / d < 2 ^ (e + 1)]. *)
Definition binade (n d : positive) : Z :=
  let e0 := (Z.log2 (Zpos n) - Z.log2 (Zpos d))%Z in
  if Qle_bool (pow2 e0) (Zpos n # d) then e0 else (e0 - 1)%Z.

(** The integer nearest to [num / den], the even one at a tie
    ([0 <= num], [0 < den]). *)
Definition nearestEven (num den : Z) : Z :=
  let m := (num / den)%Z in
  match (2 * (num mod den) ?= den)%Z with
  | Lt => m
  | Gt => (m + 1)%Z
  | Eq => if Z.even m then m else (m + 1)%Z
  end.

(** The [double] nearest to the rational [q].  The spacing of the
    doubles around [q] is [2 ^ ex], where [ex] is 52 below the binade of
    [q], but not below that of the subnormals; a result of [2 ^ 1024] or
    more is an infinity. *)
Definition round (q : Q) : double :=
  match Qnum q with
  | Z0 => Finite 0
  | Zpos n | Zneg n =>
      let negative := (Qnum q <? 0)%Z in
      let ex := (Z.max (binade n (Qden q)) (-1022) - 52)%Z in
      let m :=
        if (0 <=? ex)%Z
        then nearestEven (Zpos n) (Zpos (Qden q) * 2 ^ ex)
        else nearestEven (Zpos n * 2 ^ (- ex)) (Zpos (Qden q)) in
      if (0 <=? ex)%Z && (2 ^ 1024 <=? m * 2 ^ ex)%Z
      then Infinite negative
      else
        let magnitude := Qred (inject_Z m * pow2 ex) in
        Finite (if negative then - magnitude else magnitude)%Q
  end.

Definition isNaN (x : double) : bool :=
  match x with NaN => true | _ => false end.

Definition isFinite (x : double) : bool :=
  match x with Finite _ => true | _ => false end.

Definition Qnegative (q : Q) : bool := (Qnum q <? 0)%Z.

Definition Qzero (q : Q) : bool := (Qnum q =? 0)%Z.

Definition fneg (x : double) : double :=
  match x with
  | Finite q => Finite (- q)
  | Infinite s => Infinite (negb s)
  | NaN => NaN
  end.

Definition fadd (x y : double) : double :=
  match x, y with
  | NaN, _ | _, NaN => NaN
  | Infinite s, Infinite t => if Bool.eqb s t then Infinite s else NaN
  | Infinite s, Finite _ | Finite _, Infinite s => Infinite s
  | Finite a, Finite b => round (a + b)
  end.

Definition fsub (x y : double) : double := fadd x (fneg y).

Definition fmul (x y : double) : double :=
  match x, y with
  | NaN, _ | _, NaN => NaN
  | Infinite s, Infinite t => Infinite (xorb s t)
  | Infinite s, Finite b | Finite b, Infinite s =>
      if Qzero b then NaN else Infinite (xorb s (Qnegative b))
  | Finite a, Finite b => round (a * b)
  end.

(** A quotient by zero has the sign of the dividend here, the zeros
    being identified; the divisors of this file are positive counts. *)
Definition fdiv (x y : double) : double :=
  match x, y with
  | NaN, _ | _, NaN => NaN
  | Infinite _, Infinite _ => NaN
  | Infinite s, Finite b => Infinite (xorb s (Qnegative b))
  | Finite _, Infinite _ => Finite 0
  | Finite a, Finite b =>
      if Qzero b then (if Qzero a then NaN else Infinite (Qnegative a))
      else round (a / b)
  end.

(** The comparisons of C++: false as soon as an operand is a NaN. *)
Definition fle (x y : double) : bool :=
  match x, y with
  | NaN, _ | _, NaN => false
  | Infinite s, Infinite t => s || negb t
  | Infinite s, Finite _ => s
  | Finite _, Infinite t => negb t
  | Finite a, Finite b => Qle_bool a b
  end.

Definition flt (x y : double) : bool :=
  match x, y with
  | NaN, _ | _, NaN => false
  | _, _ => negb (fle y x)
  end.

Definition feq (x y : double) : bool :=
  match x, y with
  | Finite a, Finite b => Qeq_bool a b
  | Infinite s, Infinite t => Bool.eqb s t
  | _, _ => false
  end.

(** The conversion of an [int]. *)
Definition of_int (z : Z) : double := round (inject_Z z).

(** ** Numeric helpers of QtGlobal, on doubles *)

(** Modelled from the spec: QtCore's [qglobal.h] is not part of this
    repository.  [qMax(a,b) = (a < b) ? b : a],
    [qMin(a,b) = (a < b) ? a : b], [qAbs(t) = (t >= 0) ? t : -t] and
    [qFuzzyCompare(p1,p2) = (qAbs(p1 - p2) * 1000000000000. <= qMin(qAbs(p1), qAbs(p2)))],
    each operation rounded. *)
Definition qMax (a b : double) : double := if flt a b then b else a.

Definition qMin (a b : double) : double := if flt a b then a else b.

Definition qAbs (t : double) : double :=
  if fle (Finite 0) t then t else fneg t.

Definition qFuzzyCompare (p1 p2 : double) : bool :=
  fle (fmul (qAbs (fsub p1 p2)) (Finite 1000000000000))
      (qMin (qAbs p1) (qAbs p2)).

(** ** Data model *)

(** The attributes of an item that [updateLayout] reads or writes. *)
Record QQuickItem := mkItem {
  width : double;
  implicitWidth : double;
  implicitHeight : double;
  widthValid : bool
}.

Definition item_set_width (v : double) (it : QQuickItem) : QQuickItem :=
  {| width := v; implicitWidth := implicitWidth it;
     implicitHeight := implicitHeight it; widthValid := widthValid it |}.

Definition item_set_widthValid (v : bool) (it : QQuickItem) : QQuickItem :=
  {| width := width it; implicitWidth := implicitWidth it;
     implicitHeight := implicitHeight it; widthValid := v |}.

(** The members of the control that [updateLayout] reads or writes. *)
Record TabBar := mkTabBar {
  heap : gmap nat QQuickItem;
  contentModel : list nat;
  contentItem : option double;
  spacing : double;
  updatingLayout : bool;
  hasContentWidth : bool;
  hasContentHeight : bool;
  contentWidth : double;
  contentHeight : double;
  emitted : list Signal
}.

Definition set_heap (v : gmap nat QQuickItem) (d : TabBar) : TabBar :=
  {| heap := v; contentModel := contentModel d; contentItem := contentItem d;
     spacing := spacing d; updatingLayout := updatingLayout d;
     hasContentWidth := hasContentWidth d;
     hasContentHeight := hasContentHeight d; contentWidth := contentWidth d;
     contentHeight := contentHeight d; emitted := emitted d |}.

Definition set_updatingLayout (v : bool) (d : TabBar) : TabBar :=
  {| heap := heap d; contentModel := contentModel d;
     contentItem := contentItem d; spacing := spacing d; updatingLayout := v;
     hasContentWidth := hasContentWidth d;
     hasContentHeight := hasContentHeight d; contentWidth := contentWidth d;
     contentHeight := contentHeight d; emitted := emitted d |}.

Definition set_contentWidth (v : double) (d : TabBar) : TabBar :=
  {| heap := heap d; contentModel := contentModel d;
     contentItem := contentItem d; spacing := spacing d;
     updatingLayout := updatingLayout d;
     hasContentWidth := hasContentWidth d;
     hasContentHeight := hasContentHeight d; contentWidth := v;
     contentHeight := contentHeight d; emitted := emitted d |}.

Definition set_contentHeight (v : double) (d : TabBar) : TabBar :=
  {| heap := heap d; contentModel := contentModel d;
     contentItem := contentItem d; spacing := spacing d;
     updatingLayout := updatingLayout d;
     hasContentWidth := hasContentWidth d;
     hasContentHeight := hasContentHeight d; contentWidth := contentWidth d;
     contentHeight := v; emitted := emitted d |}.

Definition set_emitted (v : list Signal) (d : TabBar) : TabBar :=
  {| heap := heap d; contentModel := contentModel d;
     contentItem := contentItem d; spacing := spacing d;
     updatingLayout := updatingLayout d;
     hasContentWidth := hasContentWidth d;
     hasContentHeight := hasContentHeight d; contentWidth := contentWidth d;
     contentHeight := contentHeight d; emitted := v |}.

Definition emit (s : Signal) (d : TabBar) : TabBar :=
  set_emitted (s :: emitted d) d.

(** ** The collaborators *)

(** Modelled from the spec: the child collection, as above. *)
Definition count (d : TabBar) : Z := Z.of_nat (length (contentModel d)).

Definition itemAt (d : TabBar) (i : nat) : option (nat * QQuickItem) :=
  p ← contentModel d !! i; it ← heap d !! p; Some (p, it).

(** Modelled from the spec: [QQuickItem::setWidth], as above, with what
    QtQuick's setter does to a [double]: a NaN is ignored
    ([if (qt_is_nan(w)) return;]), and the stored width is compared with
    [==], which no NaN satisfies. *)
Definition setWidth (geometryChanged : nat → TabBar → option TabBar)
    (p : nat) (w : double) (d : TabBar) : option TabBar :=
  if isNaN w then Some d else
  match heap d !! p with
  | None => Some d
  | Some it =>
      if feq (width it) w
      then Some (set_heap (<[p := item_set_widthValid true it]> (heap d)) d)
      else geometryChanged p
             (set_heap
                (<[p := item_set_width w (item_set_widthValid true it)]>
                   (heap d)) d)
  end.

(** [QQuickItemPrivate::get(item)->widthValid = false] (line 183). *)
Definition clearWidthValid (p : nat) (d : TabBar) : TabBar :=
  set_heap (alter (item_set_widthValid false) p (heap d)) d.

(** ** [QQuickTabBarPrivate::updateLayout] *)

(** The locals of lines 152-156. *)
Record Measure := mkMeasure {
  maxHeight : double;
  totalWidth : double;
  reservedWidth : double;
  resizableItems : list nat
}.

(** Lines 162-170. *)
Definition accumulate (m : Measure) (p : nat) (it : QQuickItem) : Measure :=
  if negb (widthValid it) then
    {| maxHeight := qMax (maxHeight m) (implicitHeight it);
       totalWidth := fadd (totalWidth m) (implicitWidth it);
       reservedWidth := reservedWidth m;
       resizableItems := resizableItems m ++ [p] |}
  else
    {| maxHeight := qMax (maxHeight m) (implicitHeight it);
       totalWidth := fadd (totalWidth m) (width it);
       reservedWidth := fadd (reservedWidth m) (width it);
       resizableItems := resizableItems m |}.

Definition measureItem (d : TabBar) (m : Measure) (i : nat) : Measure :=
  match itemAt d i with
  | Some (p, it) => accumulate m p it
  | None => m
  end.

(** The locals as initialised in lines 152-156. *)
Definition measure0 : Measure :=
  {| maxHeight := Finite 0; totalWidth := Finite 0;
     reservedWidth := Finite 0; resizableItems := [] |}.

(** Lines 152-172. *)
Definition measure (d : TabBar) : Measure :=
  fold_left (measureItem d) (seq 0 (length (contentModel d))) measure0.

(** Line 174: [qMax(0, count - 1) * spacing], the [int] converted for
    the product. *)
Definition totalSpacing (d : TabBar) : double :=
  fmul (of_int (Z.max 0 (count d - 1))) (spacing d).

(** Line 178:
    [(contentItem->width() - reservedWidth - totalSpacing) / resizableItems.count()]. *)
Definition itemWidth (d : TabBar) (cw : double) : double :=
  fdiv (fsub (fsub cw (reservedWidth (measure d))) (totalSpacing d))
       (of_int (Z.of_nat (length (resizableItems (measure d))))).

(** Lines 181-184. *)
Fixpoint assignWidths (geometryChanged : nat → TabBar → option TabBar)
    (w : double) (items : list nat) (d : TabBar) : option TabBar :=
  match items with
  | [] => Some d
  | p :: rest =>
      d1 ← setWidth geometryChanged p w d;
      assignWidths geometryChanged w rest (clearWidthValid p d1)
  end.

(** Lines 177-186. *)
Definition resizeItems (geometryChanged : nat → TabBar → option TabBar)
    (cw : double) (d : TabBar) : option TabBar :=
  match resizableItems (measure d) with
  | [] => Some d
  | items =>
      d1 ← assignWidths geometryChanged (itemWidth d cw) items
             (set_updatingLayout true d);
      Some (set_updatingLayout false d1)
  end.

(** Lines 188-203. *)
Definition publishContentSize (tw mh : double) (d : TabBar) : TabBar :=
  let contentWidthChange :=
    negb (hasContentWidth d) && negb (qFuzzyCompare (contentWidth d) tw) in
  let d1 := if contentWidthChange then set_contentWidth tw d else d in
  let contentHeightChange :=
    negb (hasContentHeight d1) && negb (qFuzzyCompare (contentHeight d1) mh) in
  let d2 := if contentHeightChange then set_contentHeight mh d1 else d1 in
  let d3 := if contentWidthChange then emit ContentWidthChanged d2 else d2 in
  if contentHeightChange then emit ContentHeightChanged d3 else d3.

Definition updateLayout_body
    (geometryChanged : nat → TabBar → option TabBar) (d : TabBar)
    : option TabBar :=
  if (count d <=? 0)%Z then Some d else
  match contentItem d with
  | None => Some d
  | Some cw =>
      let m := measure d in
      let tw := fadd (totalWidth m) (totalSpacing d) in
      d1 ← resizeItems geometryChanged cw d;
      Some (publishContentSize tw (maxHeight m) d1)
  end.

(** [updateLayout] and [itemGeometryChanged] (lines 206-210), as above. *)
Fixpoint updateLayout (fuel : nat) (d : TabBar) : option TabBar :=
  match fuel with
  | O => None
  | S n =>
      updateLayout_body
        (λ _ d', if updatingLayout d' then Some d' else updateLayout n d') d
  end.

(** ** [updateLayout] as a function of the state *)

Definition guarded (gc : nat → TabBar → option TabBar) : Prop :=
  ∀ p d, updatingLayout d = true → gc p d = Some d.

(** What one turn of the loop (lines 182-183) leaves of an item. *)
Definition resized (w : double) (it : QQuickItem) : QQuickItem :=
  item_set_widthValid false
    (if isNaN w || feq (width it) w then it else item_set_width w it).

Definition resizeAll (w : double) (items : list nat)
    (h : gmap nat QQuickItem) : gmap nat QQuickItem :=
  fold_left (λ h p, alter (resized w) p h) items h.

Definition applyResize (w : double) (items : list nat) (d : TabBar)
    : TabBar :=
  match items with
  | [] => d
  | _ => set_updatingLayout false (set_heap (resizeAll w items (heap d)) d)
  end.

Definition resizedState (cw : double) (d : TabBar) : TabBar :=
  applyResize (itemWidth d cw) (resizableItems (measure d)) d.

(** The state [updateLayout] returns in. *)
Definition layout (d : TabBar) : TabBar :=
  if (count d <=? 0)%Z then d else
  match contentItem d with
  | None => d
  | Some cw =>
      publishContentSize (fadd (totalWidth (measure d)) (totalSpacing d))
        (maxHeight (measure d)) (resizedState cw d)
  end.

Definition measurePtr (h : gmap nat QQuickItem) (m : Measure) (p : nat)
    : Measure :=
  match h !! p with
  | Some it => accumulate m p it
  | None => m
  end.

Definition isResizable (h : gmap nat QQuickItem) (p : nat) : bool :=
  match h !! p with
  | Some it => negb (widthValid it)
  | None => false
  end.

(** ** The override of the content size *)

Definition set_hasContentWidth (v : bool) (d : TabBar) : TabBar :=
  {| heap := heap d; contentModel := contentModel d;
     contentItem := contentItem d; spacing := spacing d;
     updatingLayout := updatingLayout d; hasContentWidth := v;
     hasContentHeight := hasContentHeight d; contentWidth := contentWidth d;
     contentHeight := contentHeight d; emitted := emitted d |}.

Definition set_hasContentHeight (v : bool) (d : TabBar) : TabBar :=
  {| heap := heap d; contentModel := contentModel d;
     contentItem := contentItem d; spacing := spacing d;
     updatingLayout := updatingLayout d;
     hasContentWidth := hasContentWidth d; hasContentHeight := v;
     contentWidth := contentWidth d; contentHeight := contentHeight d;
     emitted := emitted d |}.

(** Lines 283-292. *)
Definition setContentWidth (w : double) (d : TabBar) : TabBar :=
  let d1 := set_hasContentWidth true d in
  if qFuzzyCompare (contentWidth d1) w then d1
  else emit ContentWidthChanged (set_contentWidth w d1).

(** Lines 323-332. *)
Definition setContentHeight (h : double) (d : TabBar) : TabBar :=
  let d1 := set_hasContentHeight true d in
  if qFuzzyCompare (contentHeight d1) h then d1
  else emit ContentHeightChanged (set_contentHeight h d1).

(** ** Observations *)

(** The total width and the height [updateLayout] derives from the
    children (lines 190 and 195). *)
Definition derivedWidth (d : TabBar) : double :=
  fadd (totalWidth (measure d)) (totalSpacing d).

Definition derivedHeight (d : TabBar) : double := maxHeight (measure d).

(** The notifications of one kind sent so far. *)
Definition sent (s : Signal) (d : TabBar) : list Signal :=
  filter (λ x, x = s) (emitted d).


Definition widthOf (d : TabBar) (p : nat) : double :=
  match heap d !! p with
  | Some it => width it
  | None => Finite 0
  end.




(** ** Example states *)

Definition tabButton (iw : double) : QQuickItem :=
  {| width := Finite 0; implicitWidth := iw; implicitHeight := Finite 20;
     widthValid := false |}.

(** A control over the children [children] whose content item is [cw]
    wide, with nothing overridden and nothing published yet. *)
Definition bar (h : gmap nat QQuickItem) (children : list nat)
    (cw sp : double) : TabBar :=
  {| heap := h; contentModel := children; contentItem := Some cw;
     spacing := sp; updatingLayout := false; hasContentWidth := false;
     hasContentHeight := false; contentWidth := Finite 0;
     contentHeight := Finite 0; emitted := [] |}.

(** Three buttons of implicit widths 50, 60 and 70 with spacing 10 in a
    content item 300 wide, and in one 10 wide. *)
Definition threeButtons : gmap nat QQuickItem :=
  <[1%nat := tabButton (Finite 50)]> (<[2%nat := tabButton (Finite 60)]>
    (<[3%nat := tabButton (Finite 70)]> ∅)).

Definition threeBar : TabBar :=
  bar threeButtons [1; 2; 3]%nat (Finite 300) (Finite 10).

Definition narrowBar : TabBar :=
  bar threeButtons [1; 2; 3]%nat (Finite 10) (Finite 10).






(** The three buttons after the owner set the content width to
    infinity. *)
Definition unboundedBar : TabBar :=
  setContentWidth (Infinite false) threeBar.

End F64.

(** * Verification *)

(** ** The numeric helpers *)


Lemma qAbs_nonneg (t : Q) : (0 <= qAbs t)%Q.
Proof.
  unfold qAbs. destruct (Qle_bool 0 t) eqn:E.
  - now apply Qle_bool_iff.
  - assert (H : (t < 0)%Q).
    { apply Qnot_le_lt. intros Hle. apply Qle_bool_iff in Hle. congruence. }
    apply Qlt_le_weak in H. apply Qopp_le_compat in H. exact H.
Qed.

(** The tolerant comparison accepts equal numbers, whatever their
    representation as fractions. *)
Lemma qFuzzyCompare_Qeq (x y : Q) : (x == y)%Q → qFuzzyCompare x y = true.
Proof.
  intros Hxy. unfold qFuzzyCompare. apply Qle_bool_iff.
  assert (Hz : (qAbs (x - y) * 1000000000000 == 0)%Q).
  { unfold qAbs. destruct (Qle_bool 0 (x - y)); rewrite Hxy; ring. }
  rewrite Hz. unfold qMin.
  destruct (Qlt_bool (qAbs x) (qAbs y)); apply qAbs_nonneg.
Qed.

Lemma qFuzzyCompare_refl (x : Q) : qFuzzyCompare x x = true.
Proof. apply qFuzzyCompare_Qeq. reflexivity. Qed.

(** ** The width-assignment loop under the guard *)

Lemma resized_idemp (w : Q) (it : QQuickItem) :
  resized w (resized w it) = resized w it.
Proof.
  unfold resized. destruct (Qeq_bool (width it) w) eqn:E; cbn.
  - now rewrite E.
  - now rewrite Qeq_bool_refl.
Qed.

Lemma resized_width (w : Q) (it : QQuickItem) : (width (resized w it) == w)%Q.
Proof.
  unfold resized. destruct (Qeq_bool (width it) w) eqn:E; cbn.
  - now apply Qeq_bool_iff.
  - reflexivity.
Qed.

Lemma alter_of_lookup {A} (f : A → A) (p : nat) (x : A) (m : gmap nat A) :
  m !! p = Some x → <[p := f x]> m = alter f p m.
Proof.
  intros Hp. apply map_eq. intros q. destruct (decide (p = q)) as [->|Hne].
  - now rewrite lookup_insert_eq, lookup_alter_eq, Hp.
  - now rewrite lookup_insert_ne, lookup_alter_ne.
Qed.

Lemma alter_of_miss {A} (f : A → A) (p : nat) (m : gmap nat A) :
  m !! p = None → alter f p m = m.
Proof.
  intros Hp. apply map_eq. intros q. destruct (decide (p = q)) as [->|Hne].
  - now rewrite lookup_alter_eq, Hp.
  - now rewrite lookup_alter_ne.
Qed.

Lemma setWidth_clear gc p w d :
  guarded gc → updatingLayout d = true →
  (d1 ← setWidth gc p w d; Some (clearWidthValid p d1))
  = Some (set_heap (alter (resized w) p (heap d)) d).
Proof.
  intros Hg Hu. unfold setWidth.
  destruct (heap d !! p) as [it|] eqn:Hp.
  - rewrite <- (alter_of_lookup (resized w) p it) by exact Hp.
    unfold resized.
    destruct (Qeq_bool (width it) w) eqn:E; [|rewrite Hg by exact Hu];
      unfold clearWidthValid; cbn; rewrite alter_insert_eq; reflexivity.
  - unfold clearWidthValid. cbn. rewrite !alter_of_miss by exact Hp.
    reflexivity.
Qed.

Lemma assignWidths_guarded gc w items d :
  guarded gc → updatingLayout d = true →
  assignWidths gc w items d = Some (set_heap (resizeAll w items (heap d)) d).
Proof.
  intros Hg. revert d. induction items as [|p rest IH]; intros d Hu.
  - cbn. now destruct d.
  - cbn [assignWidths resizeAll fold_left].
    pose proof (setWidth_clear gc p w d Hg Hu) as Hs.
    destruct (setWidth gc p w d) as [d1|]; [|discriminate Hs].
    change (Some (clearWidthValid p d1)
            = Some (set_heap (alter (resized w) p (heap d)) d)) in Hs.
    apply (inj Some) in Hs.
    change (assignWidths gc w rest (clearWidthValid p d1)
            = Some (set_heap (resizeAll w rest (alter (resized w) p (heap d))) d)).
    rewrite Hs, IH by exact Hu. reflexivity.
Qed.

Lemma resizeAll_lookup w items h p :
  resizeAll w items h !! p
  = if decide (p ∈ items) then resized w <$> h !! p else h !! p.
Proof.
  revert h. induction items as [|q rest IH]; intros h.
  - cbn. destruct (decide (p ∈ [])) as [Hin|]; [|reflexivity].
    now apply not_elem_of_nil in Hin.
  - cbn [resizeAll fold_left]. fold (resizeAll w rest (alter (resized w) q h)).
    rewrite IH. destruct (decide (q = p)) as [->|Hne].
    + rewrite lookup_alter_eq.
      destruct (decide (p ∈ rest)), (decide (p ∈ p :: rest)) as [|Hn];
        try reflexivity.
      * destruct (h !! p); cbn; [now rewrite resized_idemp|reflexivity].
      * exfalso. apply Hn. left.
      * exfalso. apply Hn. left.
    + rewrite lookup_alter_ne by exact Hne.
      destruct (decide (p ∈ rest)) as [Hr|Hr],
               (decide (p ∈ q :: rest)) as [Hq|Hq]; try reflexivity.
      * exfalso. apply Hq. now right.
      * exfalso. apply elem_of_cons in Hq as [->|]; [now apply Hne|now apply Hr].
Qed.

(** ** [updateLayout] as a function of the state *)

Lemma resizeItems_guarded gc cw d :
  guarded gc → resizeItems gc cw d = Some (resizedState cw d).
Proof.
  intros Hg. unfold resizeItems, resizedState, applyResize.
  destruct (resizableItems (measure d)) as [|p rest]; [reflexivity|].
  rewrite assignWidths_guarded by (exact Hg || reflexivity). reflexivity.
Qed.

Lemma updateLayout_body_guarded gc d :
  guarded gc → updateLayout_body gc d = Some (layout d).
Proof.
  intros Hg. unfold updateLayout_body, layout.
  destruct (count d <=? 0)%Z; [reflexivity|].
  destruct (contentItem d) as [cw|]; [|reflexivity].
  rewrite resizeItems_guarded by exact Hg. reflexivity.
Qed.

(** One activation is all it takes: the nested call is never made. *)
Lemma updateLayout_layout (n : nat) (d : TabBar) :
  updateLayout (S n) d = Some (layout d).
Proof.
  cbn [updateLayout]. apply updateLayout_body_guarded.
  intros p d' Hu. now rewrite Hu.
Qed.

(** ** The measuring loop, read off the collection *)

Lemma measure_loop d pre l m :
  contentModel d = pre ++ l →
  fold_left (measureItem d) (seq (length pre) (length l)) m
  = fold_left (measurePtr (heap d)) l m.
Proof.
  revert pre m. induction l as [|p r IH]; intros pre m Hc; [reflexivity|].
  cbn [length seq fold_left].
  assert (Hi : measureItem d m (length pre) = measurePtr (heap d) m p).
  { unfold measureItem, measurePtr, itemAt.
    rewrite Hc, list_lookup_middle by reflexivity. cbn.
    now destruct (heap d !! p). }
  rewrite Hi.
  replace (S (length pre)) with (length (pre ++ [p]))
    by (rewrite length_app; cbn; lia).
  apply IH. now rewrite <- app_assoc.
Qed.

Lemma measure_fold d :
  measure d = fold_left (measurePtr (heap d)) (contentModel d) measure0.
Proof. unfold measure. now apply (measure_loop d []). Qed.

Lemma measurePtr_fold_ext h h' l m :
  (∀ p m', p ∈ l → measurePtr h m' p = measurePtr h' m' p) →
  fold_left (measurePtr h) l m = fold_left (measurePtr h') l m.
Proof.
  revert m. induction l as [|p r IH]; intros m H; [reflexivity|].
  cbn. rewrite H by left. apply IH. intros q m' Hq. apply H. now right.
Qed.

Lemma measurePtr_fold_resizable h l m :
  resizableItems (fold_left (measurePtr h) l m)
  = resizableItems m ++ filter (λ p, isResizable h p = true) l.
Proof.
  revert m. induction l as [|p r IH]; intros m.
  - cbn. now rewrite app_nil_r.
  - cbn [fold_left]. rewrite IH, filter_cons.
    destruct (decide (isResizable h p = true)) as [Hr|Hr];
      unfold isResizable in Hr; unfold measurePtr;
      destruct (h !! p) as [it|]; try discriminate; try reflexivity;
      unfold accumulate; destruct (widthValid it); try discriminate; cbn.
    + now rewrite <- app_assoc.
    + reflexivity.
    + now exfalso.
Qed.

Lemma resizableItems_measure d :
  resizableItems (measure d)
  = filter (λ p, isResizable (heap d) p = true) (contentModel d).
Proof. rewrite measure_fold. apply measurePtr_fold_resizable. Qed.

Lemma elem_of_resizableItems d p :
  p ∈ resizableItems (measure d) ↔
  p ∈ contentModel d ∧ ∃ it, heap d !! p = Some it ∧ widthValid it = false.
Proof.
  rewrite resizableItems_measure, list_elem_of_filter. unfold isResizable.
  split.
  - intros [Hr Hin]. split; [exact Hin|].
    destruct (heap d !! p) as [it|]; [|discriminate].
    exists it. split; [reflexivity|]. now destruct (widthValid it).
  - intros [Hin (it & Hp & Hv)]. split; [|exact Hin]. now rewrite Hp, Hv.
Qed.

(** ** Frame properties of the pieces of [updateLayout] *)

Ltac publish_cases d :=
  unfold publishContentSize, emit;
  destruct d as [? ? ? ? ? ? ? hcw hch ? ? ? ?]; cbn;
  destruct hcw, hch; cbn;
  repeat match goal with
         | |- context [qFuzzyCompare ?a ?b] =>
             destruct (qFuzzyCompare a b) eqn:?; cbn
         end.

Lemma publish_heap tw mh d : heap (publishContentSize tw mh d) = heap d.
Proof. publish_cases d; reflexivity. Qed.

Lemma publish_contentModel tw mh d :
  contentModel (publishContentSize tw mh d) = contentModel d.
Proof. publish_cases d; reflexivity. Qed.

Lemma publish_contentItem tw mh d :
  contentItem (publishContentSize tw mh d) = contentItem d.
Proof. publish_cases d; reflexivity. Qed.

Lemma publish_spacing tw mh d :
  spacing (publishContentSize tw mh d) = spacing d.
Proof. publish_cases d; reflexivity. Qed.

Lemma publish_updatingLayout tw mh d :
  updatingLayout (publishContentSize tw mh d) = updatingLayout d.
Proof. publish_cases d; reflexivity. Qed.

Lemma publish_hasContentWidth tw mh d :
  hasContentWidth (publishContentSize tw mh d) = hasContentWidth d.
Proof. publish_cases d; reflexivity. Qed.

Lemma publish_hasContentHeight tw mh d :
  hasContentHeight (publishContentSize tw mh d) = hasContentHeight d.
Proof. publish_cases d; reflexivity. Qed.

Lemma publish_idemp tw mh d :
  publishContentSize tw mh (publishContentSize tw mh d)
  = publishContentSize tw mh d.
Proof.
  publish_cases d; try discriminate;
    try match goal with
        | H : qFuzzyCompare ?x ?x = false |- _ =>
            rewrite qFuzzyCompare_refl in H; discriminate H
        end;
    reflexivity.
Qed.

Lemma applyResize_publish w items tw mh d :
  applyResize w items (publishContentSize tw mh d)
  = publishContentSize tw mh (applyResize w items d).
Proof. destruct items; [reflexivity|]. publish_cases d; reflexivity. Qed.

Lemma resizeAll_idemp w items h :
  resizeAll w items (resizeAll w items h) = resizeAll w items h.
Proof.
  apply map_eq. intros p. rewrite !resizeAll_lookup.
  destruct (decide (p ∈ items)); [|reflexivity].
  destruct (h !! p); cbn; [now rewrite resized_idemp|reflexivity].
Qed.

Lemma applyResize_idemp w items d :
  applyResize w items (applyResize w items d) = applyResize w items d.
Proof.
  destruct items as [|p r]; [reflexivity|]. unfold applyResize.
  set (items := p :: r).
  change (set_updatingLayout false
            (set_heap (resizeAll w items (resizeAll w items (heap d))) d)
          = set_updatingLayout false (set_heap (resizeAll w items (heap d)) d)).
  now rewrite resizeAll_idemp.
Qed.

(** A content width the owner has overridden survives the publication,
    silently. *)
Lemma publish_overridden_width tw mh d :
  hasContentWidth d = true →
  contentWidth (publishContentSize tw mh d) = contentWidth d
  ∧ filter (λ s, s = ContentWidthChanged) (emitted (publishContentSize tw mh d))
    = filter (λ s, s = ContentWidthChanged) (emitted d).
Proof.
  intros H. unfold publishContentSize. rewrite H. cbn.
  destruct (negb (hasContentHeight d) && _); cbn; auto.
Qed.

Lemma publish_overridden_height tw mh d :
  hasContentHeight d = true →
  contentHeight (publishContentSize tw mh d) = contentHeight d
  ∧ filter (λ s, s = ContentHeightChanged) (emitted (publishContentSize tw mh d))
    = filter (λ s, s = ContentHeightChanged) (emitted d).
Proof.
  intros H. unfold publishContentSize.
  destruct (negb (hasContentWidth d) && _); cbn; rewrite H; cbn; auto.
Qed.

(** ** The inputs of the layout survive it *)

Lemma measure_ext d d' :
  contentModel d' = contentModel d →
  (∀ p m, measurePtr (heap d') m p = measurePtr (heap d) m p) →
  measure d' = measure d.
Proof.
  intros Hc Hm. rewrite !measure_fold, Hc.
  apply measurePtr_fold_ext. intros p m _. apply Hm.
Qed.

Lemma accumulate_resized m p w it :
  widthValid it = false → accumulate m p (resized w it) = accumulate m p it.
Proof.
  intros Hv. unfold accumulate, resized. cbn. rewrite Hv. cbn.
  now destruct (Qeq_bool (width it) w).
Qed.

Lemma measurePtr_resizeAll d w m p :
  measurePtr (resizeAll w (resizableItems (measure d)) (heap d)) m p
  = measurePtr (heap d) m p.
Proof.
  unfold measurePtr. rewrite resizeAll_lookup.
  destruct (decide (p ∈ resizableItems (measure d))) as [Hin|]; [|reflexivity].
  apply elem_of_resizableItems in Hin as [_ (it & Hp & Hv)].
  rewrite Hp. cbn. now apply accumulate_resized.
Qed.

Lemma measure_resizedState cw d : measure (resizedState cw d) = measure d.
Proof.
  unfold resizedState, applyResize.
  destruct (resizableItems (measure d)) as [|p r] eqn:E; [reflexivity|].
  apply measure_ext; [reflexivity|]. intros q m.
  cbn [heap set_heap set_updatingLayout]. rewrite <- E.
  apply measurePtr_resizeAll.
Qed.

Lemma measure_publish tw mh d : measure (publishContentSize tw mh d) = measure d.
Proof.
  apply measure_ext; [apply publish_contentModel|].
  intros p m. now rewrite publish_heap.
Qed.

Lemma resizedState_contentModel cw d :
  contentModel (resizedState cw d) = contentModel d.
Proof.
  unfold resizedState, applyResize. now destruct (resizableItems (measure d)).
Qed.

Lemma resizedState_contentItem cw d :
  contentItem (resizedState cw d) = contentItem d.
Proof.
  unfold resizedState, applyResize. now destruct (resizableItems (measure d)).
Qed.

Lemma resizedState_spacing cw d : spacing (resizedState cw d) = spacing d.
Proof.
  unfold resizedState, applyResize. now destruct (resizableItems (measure d)).
Qed.

Lemma resizedState_hasContentWidth cw d :
  hasContentWidth (resizedState cw d) = hasContentWidth d.
Proof.
  unfold resizedState, applyResize. now destruct (resizableItems (measure d)).
Qed.

Lemma resizedState_hasContentHeight cw d :
  hasContentHeight (resizedState cw d) = hasContentHeight d.
Proof.
  unfold resizedState, applyResize. now destruct (resizableItems (measure d)).
Qed.

Lemma resizedState_contentWidth cw d :
  contentWidth (resizedState cw d) = contentWidth d.
Proof.
  unfold resizedState, applyResize. now destruct (resizableItems (measure d)).
Qed.

Lemma resizedState_contentHeight cw d :
  contentHeight (resizedState cw d) = contentHeight d.
Proof.
  unfold resizedState, applyResize. now destruct (resizableItems (measure d)).
Qed.

Lemma resizedState_emitted cw d : emitted (resizedState cw d) = emitted d.
Proof.
  unfold resizedState, applyResize. now destruct (resizableItems (measure d)).
Qed.

Lemma resizedState_updatingLayout cw d :
  updatingLayout d = false → updatingLayout (resizedState cw d) = false.
Proof.
  unfold resizedState, applyResize.
  now destruct (resizableItems (measure d)).
Qed.

Lemma resizedState_heap cw d :
  heap (resizedState cw d)
  = resizeAll (itemWidth d cw) (resizableItems (measure d)) (heap d).
Proof.
  unfold resizedState, applyResize.
  now destruct (resizableItems (measure d)).
Qed.

(** The layout, unfolded on the path that does the work. *)
Lemma layout_work d cw :
  (0 < count d)%Z → contentItem d = Some cw →
  layout d
  = publishContentSize (totalWidth (measure d) + totalSpacing d)
      (maxHeight (measure d)) (resizedState cw d).
Proof.
  intros Hc Hi. unfold layout. rewrite Hi.
  destruct (Z.leb_spec (count d) 0); [lia|reflexivity].
Qed.

Lemma layout_idle d :
  (count d <= 0)%Z ∨ contentItem d = None → layout d = d.
Proof.
  intros [Hc|Hi]; unfold layout.
  - destruct (Z.leb_spec (count d) 0); [reflexivity|lia].
  - rewrite Hi. now destruct (count d <=? 0)%Z.
Qed.

Lemma layout_cases d :
  layout d = d
  ∨ ∃ cw, (0 < count d)%Z ∧ contentItem d = Some cw
          ∧ layout d
            = publishContentSize (totalWidth (measure d) + totalSpacing d)
                (maxHeight (measure d)) (resizedState cw d).
Proof.
  destruct (Z.leb_spec (count d) 0) as [Hc|Hc].
  - left. apply layout_idle. now left.
  - destruct (contentItem d) as [cw|] eqn:Hi.
    + right. exists cw. repeat split; try assumption. now apply layout_work.
    + left. apply layout_idle. now right.
Qed.

Lemma layout_hasContentWidth d : hasContentWidth (layout d) = hasContentWidth d.
Proof.
  destruct (layout_cases d) as [->|(cw & _ & _ & ->)]; [reflexivity|].
  rewrite publish_hasContentWidth. apply resizedState_hasContentWidth.
Qed.

Lemma layout_hasContentHeight d :
  hasContentHeight (layout d) = hasContentHeight d.
Proof.
  destruct (layout_cases d) as [->|(cw & _ & _ & ->)]; [reflexivity|].
  rewrite publish_hasContentHeight. apply resizedState_hasContentHeight.
Qed.

(** Running the layout on its own result changes nothing at all. *)
Lemma layout_idemp d : layout (layout d) = layout d.
Proof.
  destruct (layout_cases d) as [H|(cw & Hc & Hi & Hl)]; [now rewrite !H|].
  set (tw := (totalWidth (measure d) + totalSpacing d)%Q) in *.
  set (mh := maxHeight (measure d)) in *.
  assert (Hm : measure (layout d) = measure d).
  { rewrite Hl, measure_publish. apply measure_resizedState. }
  assert (Hcm : contentModel (layout d) = contentModel d).
  { rewrite Hl, publish_contentModel. apply resizedState_contentModel. }
  assert (Hsp : totalSpacing (layout d) = totalSpacing d).
  { unfold totalSpacing, count. rewrite Hcm, Hl, publish_spacing.
    now rewrite resizedState_spacing. }
  rewrite (layout_work (layout d) cw).
  - unfold resizedState at 1, itemWidth. rewrite Hm, Hsp.
    fold (itemWidth d cw). fold tw mh. rewrite Hl at 1.
    rewrite applyResize_publish. unfold resizedState.
    rewrite applyResize_idemp, publish_idemp. now rewrite Hl.
  - unfold count. now rewrite Hcm.
  - rewrite Hl, publish_contentItem. now rewrite resizedState_contentItem.
Qed.

(** ** Selection synchronisation *)

Lemma indexOf_from_first l p k (i : nat) :
  l !! i = Some p → (∀ j, (j < i)%nat → l !! j ≠ Some p) →
  indexOf_from l p k = (k + Z.of_nat i)%Z.
Proof.
  revert k i. induction l as [|x r IH]; intros k i Hi Hfirst; [discriminate|].
  cbn [indexOf_from]. destruct (decide (x = p)) as [->|Hne].
  - destruct i as [|i]; [lia|].
    exfalso. apply (Hfirst O); [lia|reflexivity].
  - destruct i as [|i]; [cbn in Hi; congruence|].
    rewrite (IH (k + 1)%Z i); [lia|exact Hi|].
    intros j Hj. apply (Hfirst (S j)). lia.
Qed.

Lemma indexOf_from_elem l p k :
  p ∈ l →
  ∃ i : nat, indexOf_from l p k = (k + Z.of_nat i)%Z ∧ l !! i = Some p.
Proof.
  revert k. induction l as [|x r IH]; intros k Hin.
  - now apply not_elem_of_nil in Hin.
  - cbn [indexOf_from]. destruct (decide (x = p)) as [->|Hne].
    + exists O. split; [lia|reflexivity].
    + apply elem_of_cons in Hin as [->|Hin]; [congruence|].
      destruct (IH (k + 1)%Z Hin) as (i & Hi & Hl).
      exists (S i). split; [lia|exact Hl].
Qed.

Lemma indexOf_from_miss l p k : p ∉ l → indexOf_from l p k = (-1)%Z.
Proof.
  revert k. induction l as [|x r IH]; intros k Hin; [reflexivity|].
  cbn [indexOf_from]. destruct (decide (x = p)) as [->|Hne].
  - exfalso. apply Hin. left.
  - apply IH. intros H. apply Hin. now right.
Qed.

Lemma get_Some d index p :
  get d index = Some p →
  (0 <= index)%Z ∧ contentModel d !! Z.to_nat index = Some p.
Proof.
  unfold get. destruct (Z.ltb_spec index 0); [discriminate|]. auto.
Qed.

Lemma get_of_nat d (i : nat) : get d (Z.of_nat i) = contentModel d !! i.
Proof.
  unfold get. destruct (Z.ltb_spec (Z.of_nat i) 0); [lia|].
  now rewrite Nat2Z.id.
Qed.

Lemma get_indexOf d p : p ∈ contentModel d → get d (indexOf d p) = Some p.
Proof.
  intros Hin. unfold indexOf.
  destruct (indexOf_from_elem _ _ 0%Z Hin) as (i & -> & Hl).
  now rewrite Z.add_0_l, get_of_nat.
Qed.

Lemma tabButton_cast_Some d o p :
  tabButton_cast d o = Some p ↔
  o = Some p ∧ ∃ it, heap d !! p = Some it ∧ isTabButton it = true.
Proof.
  unfold tabButton_cast. split.
  - destruct o as [q|]; [|discriminate]. cbn.
    destruct (heap d !! q) as [it|] eqn:Hq; [|discriminate]. cbn.
    destruct (isTabButton it) eqn:Ht; [|discriminate].
    intros [= ->]. eauto.
  - intros [-> (it & Hp & Ht)]. cbn. rewrite Hp. cbn. now rewrite Ht.
Qed.

Lemma updateCurrentItem_checked n d p :
  tabButton_cast d (get d (currentIndex d)) = Some p →
  isChecked d p = true →
  updateCurrentItem (S n) d = Some d.
Proof.
  intros Hc Hk. cbn [updateCurrentItem]. unfold updateCurrentItem_body.
  rewrite Hc. unfold setChecked. unfold isChecked in Hk.
  destruct (heap d !! p) as [it|]; [|reflexivity]. now rewrite Hk.
Qed.

Lemma item_set_checked_same it v :
  checked it = v → item_set_checked v it = it.
Proof. destruct it. cbn. now intros ->. Qed.

Lemma unchecked_idemp it : unchecked (unchecked it) = unchecked it.
Proof. unfold unchecked. now destruct (isTabButton it) eqn:E; cbn; rewrite ?E. Qed.

Lemma exclusiveHeap_lookup p group h q :
  exclusiveHeap p group h !! q
  = if decide (q ∈ group ∧ q ≠ p) then unchecked <$> h !! q else h !! q.
Proof.
  revert h. induction group as [|x r IH]; intros h.
  - cbn. rewrite decide_False; [reflexivity|].
    intros [H _]. now apply not_elem_of_nil in H.
  - cbn [exclusiveHeap fold_left].
    fold (exclusiveHeap p r (if decide (x = p) then h else alter unchecked x h)).
    rewrite IH. destruct (decide (x = p)) as [->|Hxp].
    + destruct (decide (q ∈ r ∧ q ≠ p)) as [[Hr Hq]|Hn].
      * rewrite decide_True; [reflexivity|]. split; [now right|exact Hq].
      * rewrite decide_False; [reflexivity|].
        intros [Hin Hq]. apply Hn. split; [|exact Hq].
        apply elem_of_cons in Hin as [->|Hin]; [congruence|exact Hin].
    + destruct (decide (x = q)) as [->|Hxq].
      * rewrite lookup_alter_eq.
        rewrite (decide_True (P := q ∈ q :: r ∧ q ≠ p)) by (split; [left|exact Hxp]).
        destruct (decide (q ∈ r ∧ q ≠ p)); [|reflexivity].
        destruct (h !! q); cbn; [now rewrite unchecked_idemp|reflexivity].
      * rewrite lookup_alter_ne by exact Hxq.
        destruct (decide (q ∈ r ∧ q ≠ p)) as [[Hr Hq]|Hn].
        -- rewrite decide_True; [reflexivity|]. split; [now right|exact Hq].
        -- rewrite decide_False; [reflexivity|].
           intros [Hin Hq]. apply Hn. split; [|exact Hq].
           apply elem_of_cons in Hin as [->|Hin]; [congruence|exact Hin].
Qed.

(** A listener that does nothing for a sender that is not checked. *)
Lemma updateCurrentIndex_body_unchecked f q s :
  isChecked s q = false → updateCurrentIndex_body f (Some q) s = Some s.
Proof.
  intros Hk. unfold updateCurrentIndex_body.
  destruct (tabButton_cast s (Some q)) as [b|] eqn:Hc; [|reflexivity].
  apply tabButton_cast_Some in Hc as [[= <-] _]. now rewrite Hk.
Qed.

Lemma uncheckOthers_quiet (L : nat → TabBar → option TabBar) p group d :
  (∀ q s, isChecked s q = false → L q s = Some s) →
  uncheckOthers L p group d
  = Some (set_heap (exclusiveHeap p group (heap d)) d).
Proof.
  intros HL. revert d. induction group as [|q r IH]; intros d.
  - cbn. now destruct d.
  - cbn [uncheckOthers exclusiveHeap fold_left].
    fold (exclusiveHeap p r (if decide (q = p) then heap d
                             else alter unchecked q (heap d))).
    assert (Hstep : (if decide (q = p) then Some d
                     else match heap d !! q with
                          | Some it =>
                              if isTabButton it && checked it
                              then L q (set_heap
                                          (<[q := item_set_checked false it]>
                                             (heap d)) d)
                              else Some d
                          | None => Some d
                          end)
                    = Some (set_heap (if decide (q = p) then heap d
                                      else alter unchecked q (heap d)) d)).
    { destruct (decide (q = p)); [now destruct d|].
      destruct (heap d !! q) as [it|] eqn:Hq.
      - destruct (isTabButton it) eqn:Ht; cbn [andb].
        + destruct (checked it) eqn:Hk.
          * rewrite HL by (unfold isChecked; cbn; now rewrite lookup_insert_eq).
            f_equal. f_equal. rewrite <- (alter_of_lookup unchecked q it) by exact Hq.
            unfold unchecked. now rewrite Ht.
          * f_equal. rewrite alter_id; [now destruct d|].
            intros x Hx. rewrite Hq in Hx. injection Hx as <-.
            unfold unchecked. rewrite Ht. now apply item_set_checked_same.
        + f_equal. rewrite alter_id; [now destruct d|].
          intros x Hx. rewrite Hq in Hx. injection Hx as <-.
          unfold unchecked. now rewrite Ht.
      - rewrite alter_of_miss by exact Hq. now destruct d. }
    rewrite Hstep. cbn [mbind option_bind]. rewrite IH. reflexivity.
Qed.

Lemma checkButton_frame p d : set_heap (heap (checkButton p d)) d = checkButton p d.
Proof. unfold checkButton. destruct (heap d !! p); [reflexivity|now destruct d]. Qed.

Lemma checkButton_lookup p d it :
  heap d !! p = Some it →
  heap (checkButton p d) !! p = Some (item_set_checked true it).
Proof.
  intros Hp. unfold checkButton. rewrite Hp. cbn [heap set_heap].
  rewrite exclusiveHeap_lookup, decide_False by (intros [_ H]; congruence).
  apply lookup_insert_eq.
Qed.

Lemma updateCurrentItem_selectItem n d :
  updateCurrentItem (S (S n)) d = Some (selectItem d).
Proof.
  unfold selectItem.
  destruct (tabButton_cast d (get d (currentIndex d))) as [p|] eqn:Hc.
  - destruct (isChecked d p) eqn:Hk.
    + now apply (updateCurrentItem_checked _ _ p).
    + cbn [updateCurrentItem]. unfold updateCurrentItem_body at 1.
      rewrite Hc. unfold setChecked at 1.
      apply tabButton_cast_Some in Hc as [Hg (it & Hp & Ht)].
      pose proof (checkButton_lookup p d it Hp) as Hp1.
      unfold checkButton in Hp1 |- *.
      unfold isChecked in Hk. rewrite Hp in Hk, Hp1 |- *. rewrite Hk.
      cbn [Bool.eqb].
      rewrite uncheckOthers_quiet
        by (intros q s; apply updateCurrentIndex_body_unchecked).
      cbn [mbind option_bind contentModel heap set_heap].
      set (d1 := set_heap
                   (exclusiveHeap p (contentModel d)
                      (<[p:=item_set_checked true it]> (heap d))) d) in *.
      change (set_heap
                (exclusiveHeap p (contentModel d)
                   (<[p:=item_set_checked true it]> (heap d)))
                (set_heap (<[p:=item_set_checked true it]> (heap d)) d))
        with d1.
      assert (Hc1 : ∀ d', heap d' = heap d1 →
                tabButton_cast d' (Some p) = Some p).
      { intros d' Hh. apply tabButton_cast_Some. split; [reflexivity|].
        exists (item_set_checked true it). now rewrite Hh. }
      unfold updateCurrentIndex_body. rewrite Hc1 by reflexivity.
      unfold isChecked. rewrite Hp1. cbn [checked item_set_checked].
      unfold setCurrentIndex.
      destruct (currentIndex d1 =? indexOf d1 p)%Z; [reflexivity|].
      apply (updateCurrentItem_checked _ _ p).
      * apply get_Some in Hg as [_ Hg].
        assert (Hin : p ∈ contentModel d1)
          by (apply list_elem_of_lookup; eauto).
        change (tabButton_cast
                  (emit CurrentIndexChanged (set_currentIndex (indexOf d1 p) d1))
                  (get d1 (indexOf d1 p)) = Some p).
        rewrite get_indexOf by exact Hin. now apply Hc1.
      * unfold isChecked.
        change (heap (emit CurrentIndexChanged
                        (set_currentIndex (indexOf d1 p) d1))) with (heap d1).
        now rewrite Hp1.
  - cbn [updateCurrentItem]. unfold updateCurrentItem_body. now rewrite Hc.
Qed.

Lemma selectItem_updatingLayout d :
  updatingLayout (selectItem d) = updatingLayout d.
Proof.
  unfold selectItem, checkButton.
  destruct (tabButton_cast _ _) as [p|]; [|reflexivity].
  destruct (isChecked d p); [reflexivity|].
  destruct (heap d !! p); cbn; now destruct (_ =? _)%Z.
Qed.

Lemma updateCurrentIndex_selectIndex n sender d :
  updateCurrentIndex (S n) sender d = Some (selectIndex sender d).
Proof.
  unfold updateCurrentIndex, updateCurrentIndex_body, selectIndex.
  destruct (tabButton_cast d sender) as [p|] eqn:Hc; [|reflexivity].
  destruct (isChecked d p) eqn:Hk; [|reflexivity].
  unfold setCurrentIndex.
  destruct (currentIndex d =? indexOf d p)%Z; [reflexivity|].
  set (d2 := emit CurrentIndexChanged (set_currentIndex (indexOf d p) d)).
  apply tabButton_cast_Some in Hc as [_ Hit].
  destruct (decide (p ∈ contentModel d)) as [Hin|Hout].
  - apply (updateCurrentItem_checked _ _ p).
    + change (tabButton_cast d2 (get d (indexOf d p)) = Some p).
      rewrite get_indexOf by exact Hin. now apply tabButton_cast_Some.
    + exact Hk.
  - cbn [updateCurrentItem]. unfold updateCurrentItem_body.
    change (get d2 (currentIndex d2)) with (get d (indexOf d p)).
    unfold indexOf. now rewrite indexOf_from_miss by exact Hout.
Qed.

Lemma selectIndex_updatingLayout sender d :
  updatingLayout (selectIndex sender d) = updatingLayout d.
Proof.
  unfold selectIndex. destruct (tabButton_cast _ _) as [p|]; [|reflexivity].
  destruct (isChecked d p); [|reflexivity]. now destruct (_ =? _)%Z.
Qed.

(** ** Event sequences as a function of the state *)

Lemma handle_step n m e d : handle (S n) (S (S m)) e d = Some (step e d).
Proof.
  destruct e; cbn [handle step];
    unfold itemGeometryChanged, itemImplicitWidthChanged,
      itemImplicitHeightChanged, updatePolish, geometryChanged,
      componentComplete, resetContentWidth, resetContentHeight,
      setCurrentIndex;
    rewrite ?updateCurrentItem_selectItem, ?updateCurrentIndex_selectIndex;
    try reflexivity.
  - destruct (negb (updatingLayout d)); [apply updateLayout_layout|reflexivity].
  - destruct (_ && _); [apply updateLayout_layout|reflexivity].
  - destruct (_ && _); [apply updateLayout_layout|reflexivity].
  - apply updateLayout_layout.
  - cbn. apply updateLayout_layout.
  - apply updateLayout_layout.
  - destruct (negb (hasContentWidth d)); [reflexivity|]. cbn.
    destruct (isComponentComplete d); [apply updateLayout_layout|reflexivity].
  - destruct (negb (hasContentHeight d)); [reflexivity|]. cbn.
    destruct (isComponentComplete d); [apply updateLayout_layout|reflexivity].
  - now destruct (_ =? _)%Z.
Qed.

Lemma run_steps n m evs d :
  run (S n) (S (S m)) evs d = Some (fold_left (λ s e, step e s) evs d).
Proof.
  revert d. induction evs as [|e r IH]; intros d; [reflexivity|].
  cbn [run fold_left]. rewrite handle_step. cbn. apply IH.
Qed.

Lemma layout_updatingLayout d :
  updatingLayout d = false → updatingLayout (layout d) = false.
Proof.
  intros Hu. destruct (layout_cases d) as [->|(cw & _ & _ & ->)]; [exact Hu|].
  rewrite publish_updatingLayout. now apply resizedState_updatingLayout.
Qed.

Lemma step_updatingLayout e d :
  updatingLayout d = false → updatingLayout (step e d) = false.
Proof.
  intros Hu. destruct e; cbn [step];
    repeat match goal with
           | |- context [if ?b then _ else _] => destruct b
           end;
    try exact Hu; try (apply layout_updatingLayout; exact Hu).
  - apply layout_updatingLayout. now rewrite selectItem_updatingLayout.
  - unfold setContentWidth. now destruct (qFuzzyCompare _ _).
  - unfold setContentHeight. now destruct (qFuzzyCompare _ _).
  - unfold setPosition. now destruct (decide _).
  - now rewrite selectIndex_updatingLayout.
  - now rewrite selectItem_updatingLayout.
Qed.

(** ** Worked scenarios *)

(** Three children of implicit widths 50, 60, 70, spacing 10, available
    width 300: each child gets (300 - 20)/3 and the content width is
    50 + 60 + 70 + 20 = 200; both notifications are sent once. *)
Example scenario_three_buttons :
  ∃ d', updateLayout 1 threeBar = Some d'
        ∧ widthOf d' 1 = (280 # 3)%Q ∧ widthOf d' 2 = (280 # 3)%Q
        ∧ widthOf d' 3 = (280 # 3)%Q
        ∧ contentWidth d' = 200%Q ∧ contentHeight d' = 20%Q
        ∧ emitted d' = [ContentHeightChanged; ContentWidthChanged].
Proof. eexists. split; [reflexivity|]. vm_compute. repeat split. Qed.

(** A fourth child with an explicit width of 40: 40 is reserved and the
    three others get (300 - 40 - 30)/3; the fourth keeps its width. *)
Example scenario_fourth_explicit :
  ∃ d', updateLayout 1 fourBar = Some d'
        ∧ reservedWidth (measure fourBar) = 40%Q
        ∧ length (resizableItems (measure fourBar)) = 3%nat
        ∧ widthOf d' 1 = (230 # 3)%Q ∧ widthOf d' 4 = 40%Q.
Proof. eexists. split; [reflexivity|]. vm_compute. repeat split. Qed.

(** Less room than the spacing needs: the share is negative. *)
Example scenario_narrow :
  ∃ d', updateLayout 1 narrowBar = Some d' ∧ widthOf d' 1 = (-10 # 3)%Q.
Proof. eexists. split; [reflexivity|]. vm_compute. reflexivity. Qed.

(** What the guard is for: a listener that ignores it makes a nested
    call from inside the loop, and with no fuel left for that call the
    run on [threeBar] fails. *)
Example scenario_unguarded_reenters :
  updateLayout_body (λ _ d', updateLayout 0 d') threeBar = None.
Proof. reflexivity. Qed.

(** ** The claims *)

Lemma publish_observed_unguarded rc tw mh d :
  (∀ s g, updatingLayout g = false → rc s g = Some g) →
  updatingLayout d = false →
  publishContentSize_observed rc tw mh d = Some (publishContentSize tw mh d).
Proof.
  intros Hrc Hu. unfold publishContentSize_observed, publishContentSize.
  destruct (negb (hasContentWidth d) && _);
    destruct (negb (hasContentHeight _) && _);
    cbn [mbind option_bind]; rewrite ?Hrc by exact Hu;
    cbn [mbind option_bind]; rewrite ?Hrc by exact Hu; reflexivity.
Qed.

(** C1. Assigning a width inside [updateLayout] never re-enters
    [updateLayout].  From any state with the guard down: one activation
    of [updateLayout] suffices (fuel 1 leaves no room for a nested one, and
    more fuel gives the same state), it returns with the guard down, and
    so does every sequence of events handled with room for one activation
    only; whenever the guard is up, a child's geometry-changed
    notification returns the state as it is.  The guard is up around the
    width-assignment loop and nowhere else that can be observed: the run
    is the same whatever the listener of the children's notifications
    would do with the guard down and whatever the receivers of the two
    content-size signals would do with the guard up, so the former are
    only ever reached with the guard up and the latter with the guard
    down. *)
Theorem updateLayout_no_reentry (evs : list Event) (d : TabBar) :
  updatingLayout d = false →
  (∃ d1, updateLayout 1 d = Some d1 ∧ updatingLayout d1 = false
         ∧ ∀ n, updateLayout (S n) d = Some d1)
  ∧ (∃ d2, run 1 2 evs d = Some d2 ∧ updatingLayout d2 = false)
  ∧ (∀ fuel item g,
       updatingLayout g = true → itemGeometryChanged fuel item g = Some g)
  ∧ (∀ gc rc,
       (∀ p g, updatingLayout g = true → gc p g = Some g) →
       (∀ s g, updatingLayout g = false → rc s g = Some g) →
       updateLayout_observed gc rc d = updateLayout 1 d).
Proof.
  intros Hu. split; [|split; [|split]].
  - exists (layout d). split; [apply updateLayout_layout|].
    split; [now apply layout_updatingLayout|].
    intros n. apply updateLayout_layout.
  - exists (fold_left (λ s e, step e s) evs d). split; [apply run_steps|].
    revert d Hu. induction evs as [|e r IH]; intros d Hu; [exact Hu|].
    cbn [fold_left]. apply IH. now apply step_updatingLayout.
  - intros fuel item g Hg. unfold itemGeometryChanged. now rewrite Hg.
  - intros gc rc Hgc Hrc. rewrite updateLayout_layout.
    unfold updateLayout_observed, layout.
    destruct (count d <=? 0)%Z; [reflexivity|].
    destruct (contentItem d) as [cw|]; [|reflexivity].
    rewrite resizeItems_guarded by exact Hgc. cbn [mbind option_bind].
    apply publish_observed_unguarded; [exact Hrc|].
    now apply resizedState_updatingLayout.
Qed.

Lemma updateLayout_no_reentry_witness :
  updatingLayout threeBar = false
  ∧ ((∃ d1, updateLayout 1 threeBar = Some d1 ∧ updatingLayout d1 = false
            ∧ ∀ n, updateLayout (S n) threeBar = Some d1)
     ∧ (∃ d2, run 1 2 [EvUpdatePolish; EvItemGeometryChanged 1] threeBar
              = Some d2 ∧ updatingLayout d2 = false)
     ∧ (∀ fuel item g,
          updatingLayout g = true → itemGeometryChanged fuel item g = Some g)
     ∧ (∀ gc rc,
          (∀ p g, updatingLayout g = true → gc p g = Some g) →
          (∀ s g, updatingLayout g = false → rc s g = Some g) →
          updateLayout_observed gc rc threeBar = updateLayout 1 threeBar)).
Proof.
  split; [reflexivity|].
  apply (updateLayout_no_reentry [EvUpdatePolish; EvItemGeometryChanged 1]
           threeBar).
  reflexivity.
Defined.

Lemma layout_heap_lookup d p :
  heap (layout d) !! p
  = match contentItem d with
    | Some cw =>
        if decide (p ∈ resizableItems (measure d))
        then resized (itemWidth d cw) <$> heap d !! p
        else heap d !! p
    | None => heap d !! p
    end.
Proof.
  destruct (Z.leb_spec (count d) 0) as [Hc|Hc].
  - rewrite layout_idle by (now left).
    assert (Hr : resizableItems (measure d) = []).
    { rewrite resizableItems_measure. unfold count in Hc.
      destruct (contentModel d); [reflexivity|cbn in Hc; lia]. }
    rewrite Hr. destruct (contentItem d); [|reflexivity].
    rewrite decide_False; [reflexivity|apply not_elem_of_nil].
  - destruct (contentItem d) as [cw|] eqn:Hi.
    + rewrite (layout_work d cw Hc Hi), publish_heap, resizedState_heap.
      apply resizeAll_lookup.
    + rewrite layout_idle by (now right). reflexivity.
Qed.

(** C9. [updateLayout] leaves a child whose explicit-width flag is set at
    the start of the pass exactly as it was (width and flag included): the
    first loop only reads its width, into [totalWidth] and
    [reservedWidth], and the widths are assigned to the members of
    [resizableItems] only, so any object outside that vector is
    untouched. *)
Theorem explicit_width_untouched (n : nat) (d : TabBar) (p : nat)
    (it : QQuickItem) :
  heap d !! p = Some it → widthValid it = true →
  ∃ d', updateLayout (S n) d = Some d'
        ∧ heap d' !! p = Some it
        ∧ (p ∉ resizableItems (measure d))
        ∧ (∀ q, q ∉ resizableItems (measure d) → heap d' !! q = heap d !! q)
        ∧ ∀ m, totalWidth (accumulate m p it) = (totalWidth m + width it)%Q
               ∧ reservedWidth (accumulate m p it)
                 = (reservedWidth m + width it)%Q
               ∧ resizableItems (accumulate m p it) = resizableItems m.
Proof.
  intros Hp Hv. exists (layout d). split; [apply updateLayout_layout|].
  assert (Hout : p ∉ resizableItems (measure d)).
  { intros Hin. apply elem_of_resizableItems in Hin as [_ (it' & Hp' & Hv')].
    congruence. }
  assert (Hframe : ∀ q, q ∉ resizableItems (measure d) →
                        heap (layout d) !! q = heap d !! q).
  { intros q Hq. rewrite layout_heap_lookup.
    destruct (contentItem d); [|reflexivity]. now rewrite decide_False. }
  split; [now rewrite Hframe|]. split; [exact Hout|]. split; [exact Hframe|].
  intros m. unfold accumulate. rewrite Hv. cbn. auto.
Qed.

Lemma explicit_width_untouched_witness :
  heap fourBar !! 4%nat = Some fixedButton ∧ widthValid fixedButton = true
  ∧ ∃ d', updateLayout 1 fourBar = Some d'
          ∧ heap d' !! 4%nat = Some fixedButton.
Proof.
  split; [reflexivity|]. split; [reflexivity|].
  destruct (explicit_width_untouched 0 fourBar 4 fixedButton eq_refl eq_refl)
    as (d' & H1 & H2 & _).
  exists d'. split; assumption.
Defined.

(** C8, as the code has it.  After a run of [updateLayout] that reached
    the loop, every member of the resizable set has its explicit-width
    flag clear, although a width was just assigned to it (the share
    [itemWidth]), and the guard is down; so the next pass finds the same
    resizable set, and a child whose implicit width or height changes
    afterwards is still a member of it.  The notification of an implicit
    width change then runs [updateLayout] (it needs an activation: with
    fuel 0 it fails) unless the content width is overridden, in which
    case it returns the state without any activation; likewise the
    notification of an implicit height change and the content height. *)
Theorem resizable_stay_resizable (n : nat) (d : TabBar) (p : nat) (cw : Q) :
  contentItem d = Some cw →
  p ∈ resizableItems (measure d) →
  ∃ d' it', updateLayout (S n) d = Some d'
            ∧ heap d' !! p = Some it'
            ∧ widthValid it' = false
            ∧ (width it' == itemWidth d cw)%Q
            ∧ updatingLayout d' = false
            ∧ resizableItems (measure d') = resizableItems (measure d)
            ∧ ∀ v,
                let dw := set_heap
                            (<[p := item_set_implicitWidth v it']> (heap d'))
                            d' in
                let dh := set_heap
                            (<[p := item_set_implicitHeight v it']> (heap d'))
                            d' in
                p ∈ resizableItems (measure dw)
                ∧ p ∈ resizableItems (measure dh)
                ∧ (hasContentWidth d = false →
                   itemImplicitWidthChanged 0 p dw = None
                   ∧ itemImplicitWidthChanged (S n) p dw
                     = updateLayout (S n) dw)
                ∧ (hasContentWidth d = true →
                   itemImplicitWidthChanged 0 p dw = Some dw)
                ∧ (hasContentHeight d = false →
                   itemImplicitHeightChanged 0 p dh = None
                   ∧ itemImplicitHeightChanged (S n) p dh
                     = updateLayout (S n) dh)
                ∧ (hasContentHeight d = true →
                   itemImplicitHeightChanged 0 p dh = Some dh).
Proof.
  intros Hi Hin.
  pose proof (proj1 (elem_of_resizableItems d p) Hin) as [Hm (it & Hp & Hv)].
  assert (Hc : (0 < count d)%Z).
  { unfold count. destruct (contentModel d);
      [now apply not_elem_of_nil in Hm|cbn; lia]. }
  assert (Hl : heap (layout d) !! p = Some (resized (itemWidth d cw) it)).
  { rewrite layout_heap_lookup, Hi, decide_True by exact Hin.
    now rewrite Hp. }
  assert (Hu : updatingLayout (layout d) = false).
  { rewrite (layout_work d cw Hc Hi), publish_updatingLayout.
    unfold resizedState, applyResize.
    destruct (resizableItems (measure d));
      [now apply not_elem_of_nil in Hin|reflexivity]. }
  exists (layout d), (resized (itemWidth d cw) it).
  split; [apply updateLayout_layout|]. split; [exact Hl|].
  split; [reflexivity|]. split; [apply resized_width|].
  split; [exact Hu|]. split.
  { rewrite (layout_work d cw Hc Hi), measure_publish.
    now rewrite measure_resizedState. }
  intros v dw dh.
  assert (Hmem : ∀ x, widthValid x = false →
            p ∈ resizableItems
                  (measure (set_heap (<[p := x]> (heap (layout d)))
                              (layout d)))).
  { intros x Hx. apply elem_of_resizableItems.
    cbn [contentModel heap set_heap].
    rewrite (layout_work d cw Hc Hi), publish_contentModel,
      resizedState_contentModel.
    split; [exact Hm|]. exists x. split; [apply lookup_insert_eq|exact Hx]. }
  split; [now apply Hmem|]. split; [now apply Hmem|].
  unfold itemImplicitWidthChanged, itemImplicitHeightChanged. subst dw dh.
  cbn [updatingLayout hasContentWidth hasContentHeight set_heap].
  rewrite Hu, layout_hasContentWidth, layout_hasContentHeight. cbn [negb andb].
  split; [intros Hf; rewrite Hf; split; reflexivity|].
  split; [intros Hf; rewrite Hf; reflexivity|].
  split; [intros Hf; rewrite Hf; split; reflexivity|].
  intros Hf. rewrite Hf. reflexivity.
Qed.

Lemma resizable_stay_resizable_witness :
  contentItem threeBar = Some 300%Q
  ∧ (2%nat ∈ resizableItems (measure threeBar))
  ∧ ∃ d' it', updateLayout 1 threeBar = Some d'
              ∧ heap d' !! 2%nat = Some it'
              ∧ widthValid it' = false
              ∧ (width it' == 280 / 3)%Q
              ∧ updatingLayout d' = false.
Proof.
  assert (Hin : 2%nat ∈ resizableItems (measure threeBar)).
  { apply list_elem_of_In. vm_compute. auto. }
  split; [reflexivity|]. split; [exact Hin|].
  destruct (resizable_stay_resizable 0 threeBar 2 300 eq_refl Hin)
    as (d' & it' & H1 & H2 & H3 & H4 & H5 & _).
  exists d', it'. repeat split; assumption.
Defined.

(** C8 as stated fails: [overriddenBar] is what a run of [updateLayout]
    with a non-empty resizable set returned, on a control whose content
    width is overridden.  When the implicit width of its second child
    changes afterwards, the child is still resizable, but
    [itemImplicitWidthChanged] returns with fuel 0, that is without
    running [updateLayout]; on the control without override the same
    notification needs the activation. *)
Lemma implicit_change_not_recomputed :
  updateLayout 1 (setContentHeight 30 (setContentWidth 120 threeBar))
  = Some overriddenBar
  ∧ (2%nat ∈ resizableItems
               (measure (setContentHeight 30 (setContentWidth 120 threeBar))))
  ∧ hasContentWidth overriddenBar = true
  ∧ (∃ it', heap overriddenBar !! 2%nat = Some it'
            ∧ widthValid it' = false
            ∧ let dw := set_heap
                          (<[2%nat := item_set_implicitWidth 500 it']>
                             (heap overriddenBar)) overriddenBar in
              (2%nat ∈ resizableItems (measure dw))
              ∧ itemImplicitWidthChanged 0 2 dw = Some dw)
  ∧ (∃ d' it', updateLayout 1 threeBar = Some d'
               ∧ heap d' !! 2%nat = Some it'
               ∧ itemImplicitWidthChanged 0 2
                   (set_heap (<[2%nat := item_set_implicitWidth 500 it']>
                                (heap d')) d') = None).
Proof.
  split; [apply updateLayout_layout|].
  split; [apply list_elem_of_In; vm_compute; auto|].
  split; [reflexivity|]. split.
  - eexists. split; [vm_compute; reflexivity|]. split; [reflexivity|].
    split; [apply list_elem_of_In; vm_compute; auto|reflexivity].
  - eexists _, _. split; [apply updateLayout_layout|].
    split; [vm_compute; reflexivity|]. reflexivity.
Qed.

(** ** Overridden content size *)

Lemma widthView_flag d d' :
  widthView d' = widthView d → hasContentWidth d' = hasContentWidth d.
Proof. unfold widthView. now intros [= -> _ _]. Qed.

Lemma heightView_flag d d' :
  heightView d' = heightView d → hasContentHeight d' = hasContentHeight d.
Proof. unfold heightView. now intros [= -> _ _]. Qed.

Lemma layout_widthView d :
  hasContentWidth d = true → widthView (layout d) = widthView d.
Proof.
  intros H. destruct (layout_cases d) as [->|(cw & _ & _ & ->)]; [reflexivity|].
  unfold widthView. rewrite publish_hasContentWidth.
  destruct (publish_overridden_width
              (totalWidth (measure d) + totalSpacing d) (maxHeight (measure d))
              (resizedState cw d)) as [-> ->].
  - now rewrite resizedState_hasContentWidth.
  - now rewrite resizedState_hasContentWidth, resizedState_contentWidth,
      resizedState_emitted.
Qed.

Lemma layout_heightView d :
  hasContentHeight d = true → heightView (layout d) = heightView d.
Proof.
  intros H. destruct (layout_cases d) as [->|(cw & _ & _ & ->)]; [reflexivity|].
  unfold heightView. rewrite publish_hasContentHeight.
  destruct (publish_overridden_height
              (totalWidth (measure d) + totalSpacing d) (maxHeight (measure d))
              (resizedState cw d)) as [-> ->].
  - now rewrite resizedState_hasContentHeight.
  - now rewrite resizedState_hasContentHeight, resizedState_contentHeight,
      resizedState_emitted.
Qed.

Lemma selectItem_views d :
  widthView (selectItem d) = widthView d
  ∧ heightView (selectItem d) = heightView d.
Proof.
  unfold selectItem, checkButton.
  destruct (tabButton_cast _ _) as [p|]; [|split; reflexivity].
  destruct (isChecked d p); [split; reflexivity|].
  destruct (heap d !! p); cbn; destruct (_ =? _)%Z; split; reflexivity.
Qed.

Lemma selectIndex_views sender d :
  widthView (selectIndex sender d) = widthView d
  ∧ heightView (selectIndex sender d) = heightView d.
Proof.
  unfold selectIndex.
  destruct (tabButton_cast _ _) as [p|]; [|split; reflexivity].
  destruct (isChecked d p); [|split; reflexivity].
  destruct (_ =? _)%Z; split; reflexivity.
Qed.

Lemma setContentHeight_widthView h d :
  widthView (setContentHeight h d) = widthView d.
Proof. unfold setContentHeight. now destruct (qFuzzyCompare _ _). Qed.

Lemma setContentWidth_heightView w d :
  heightView (setContentWidth w d) = heightView d.
Proof. unfold setContentWidth. now destruct (qFuzzyCompare _ _). Qed.

Lemma setPosition_views p d :
  widthView (setPosition p d) = widthView d
  ∧ heightView (setPosition p d) = heightView d.
Proof. unfold setPosition. destruct (decide _); split; reflexivity. Qed.

Lemma step_widthView e d :
  touchesContentWidth e = false → hasContentWidth d = true →
  widthView (step e d) = widthView d.
Proof.
  intros He Hd. destruct e; try discriminate He; cbn [step];
    repeat match goal with
           | |- context [if ?b then _ else _] => destruct b
           end;
    try reflexivity; try (now apply layout_widthView).
  - pose proof (proj1 (selectItem_views (set_isComponentComplete true d))) as H.
    rewrite layout_widthView; [exact H|].
    now rewrite (widthView_flag _ _ H).
  - apply setContentHeight_widthView.
  - now rewrite layout_widthView.
  - apply setPosition_views.
  - apply selectIndex_views.
  - now rewrite (proj1 (selectItem_views _)).
Qed.

Lemma step_heightView e d :
  touchesContentHeight e = false → hasContentHeight d = true →
  heightView (step e d) = heightView d.
Proof.
  intros He Hd. destruct e; try discriminate He; cbn [step];
    repeat match goal with
           | |- context [if ?b then _ else _] => destruct b
           end;
    try reflexivity; try (now apply layout_heightView).
  - pose proof (proj2 (selectItem_views (set_isComponentComplete true d))) as H.
    rewrite layout_heightView; [exact H|].
    now rewrite (heightView_flag _ _ H).
  - apply setContentWidth_heightView.
  - now rewrite layout_heightView.
  - apply setPosition_views.
  - apply selectIndex_views.
  - now rewrite (proj2 (selectItem_views _)).
Qed.

Lemma steps_widthView evs d :
  forallb (λ e, negb (touchesContentWidth e)) evs = true →
  hasContentWidth d = true →
  widthView (fold_left (λ s e, step e s) evs d) = widthView d.
Proof.
  revert d. induction evs as [|e r IH]; intros d Hall Hd; [reflexivity|].
  cbn in Hall. apply andb_true_iff in Hall as [He Hr].
  apply negb_true_iff in He. cbn [fold_left].
  pose proof (step_widthView e d He Hd) as Hs.
  rewrite IH; [exact Hs|exact Hr|]. now rewrite (widthView_flag _ _ Hs).
Qed.

Lemma steps_heightView evs d :
  forallb (λ e, negb (touchesContentHeight e)) evs = true →
  hasContentHeight d = true →
  heightView (fold_left (λ s e, step e s) evs d) = heightView d.
Proof.
  revert d. induction evs as [|e r IH]; intros d Hall Hd; [reflexivity|].
  cbn in Hall. apply andb_true_iff in Hall as [He Hr].
  apply negb_true_iff in He. cbn [fold_left].
  pose proof (step_heightView e d He Hd) as Hs.
  rewrite IH; [exact Hs|exact Hr|]. now rewrite (heightView_flag _ _ Hs).
Qed.

Lemma setContentWidth_flag w d : hasContentWidth (setContentWidth w d) = true.
Proof. unfold setContentWidth. now destruct (qFuzzyCompare _ _). Qed.

Lemma setContentHeight_flag h d :
  hasContentHeight (setContentHeight h d) = true.
Proof. unfold setContentHeight. now destruct (qFuzzyCompare _ _). Qed.

(** C3. Once [setContentWidth] was called the override flag is up, and
    from then on no run of [updateLayout], nor any sequence of events
    that contains neither [resetContentWidth] nor a further
    [setContentWidth], changes the stored content width or emits
    [contentWidthChanged]; the flag stays up throughout.  The same holds
    for the content height. *)
Theorem override_frozen (n m : nat) (v : Q) (d : TabBar) (evs : list Event) :
  (forallb (λ e, negb (touchesContentWidth e)) evs = true →
   hasContentWidth (setContentWidth v d) = true
   ∧ ∃ d', run (S n) (S (S m)) evs (setContentWidth v d) = Some d'
           ∧ hasContentWidth d' = true
           ∧ contentWidth d' = contentWidth (setContentWidth v d)
           ∧ filter (λ s, s = ContentWidthChanged) (emitted d')
             = filter (λ s, s = ContentWidthChanged)
                 (emitted (setContentWidth v d)))
  ∧ (forallb (λ e, negb (touchesContentHeight e)) evs = true →
     hasContentHeight (setContentHeight v d) = true
     ∧ ∃ d', run (S n) (S (S m)) evs (setContentHeight v d) = Some d'
             ∧ hasContentHeight d' = true
             ∧ contentHeight d' = contentHeight (setContentHeight v d)
             ∧ filter (λ s, s = ContentHeightChanged) (emitted d')
               = filter (λ s, s = ContentHeightChanged)
                   (emitted (setContentHeight v d)))
  ∧ (∀ g, hasContentWidth g = true →
          ∃ g', updateLayout (S n) g = Some g'
                ∧ hasContentWidth g' = true
                ∧ contentWidth g' = contentWidth g
                ∧ filter (λ s, s = ContentWidthChanged) (emitted g')
                  = filter (λ s, s = ContentWidthChanged) (emitted g))
  ∧ (∀ g, hasContentHeight g = true →
          ∃ g', updateLayout (S n) g = Some g'
                ∧ hasContentHeight g' = true
                ∧ contentHeight g' = contentHeight g
                ∧ filter (λ s, s = ContentHeightChanged) (emitted g')
                  = filter (λ s, s = ContentHeightChanged) (emitted g)).
Proof.
  split; [|split; [|split]].
  - intros Hevs. pose proof (setContentWidth_flag v d) as Hf.
    split; [exact Hf|].
    exists (fold_left (λ s e, step e s) evs (setContentWidth v d)).
    split; [apply run_steps|].
    pose proof (steps_widthView evs _ Hevs Hf) as Hv.
    unfold widthView in Hv. injection Hv as H1 H2 H3.
    rewrite H1, H2, H3. auto.
  - intros Hevs. pose proof (setContentHeight_flag v d) as Hf.
    split; [exact Hf|].
    exists (fold_left (λ s e, step e s) evs (setContentHeight v d)).
    split; [apply run_steps|].
    pose proof (steps_heightView evs _ Hevs Hf) as Hv.
    unfold heightView in Hv. injection Hv as H1 H2 H3.
    rewrite H1, H2, H3. auto.
  - intros g Hg. exists (layout g). split; [apply updateLayout_layout|].
    pose proof (layout_widthView g Hg) as Hv.
    unfold widthView in Hv. injection Hv as H1 H2 H3.
    rewrite H1, H2, H3. auto.
  - intros g Hg. exists (layout g). split; [apply updateLayout_layout|].
    pose proof (layout_heightView g Hg) as Hv.
    unfold heightView in Hv. injection Hv as H1 H2 H3.
    rewrite H1, H2, H3. auto.
Qed.

Lemma override_frozen_witness :
  forallb (λ e, negb (touchesContentWidth e))
    [EvUpdatePolish; EvItemImplicitWidthChanged 1; EvGeometryChanged] = true
  ∧ ∃ d', run 1 2 [EvUpdatePolish; EvItemImplicitWidthChanged 1;
                   EvGeometryChanged] (setContentWidth 120 threeBar) = Some d'
          ∧ hasContentWidth d' = true
          ∧ contentWidth d' = 120%Q.
Proof.
  split; [reflexivity|].
  destruct (proj1 (override_frozen 0 0 120 threeBar
                     [EvUpdatePolish; EvItemImplicitWidthChanged 1;
                      EvGeometryChanged]) eq_refl)
    as (_ & d' & H1 & H2 & H3 & _).
  exists d'. split; [exact H1|]. split; [exact H2|]. exact H3.
Defined.

(** C10. [setContentWidth] raises the override flag whatever the value;
    when the value is fuzzy-equal to the stored content width the call
    does nothing but raise the flag (no notification, stored value kept),
    and the following runs of [updateLayout] no longer update the content
    width.  The same holds for [setContentHeight]. *)
Theorem setContentSize_equal_value (n : nat) (w h : Q) (d : TabBar) :
  (∀ v, hasContentWidth (setContentWidth v d) = true)
  ∧ (∀ v, hasContentHeight (setContentHeight v d) = true)
  ∧ (qFuzzyCompare (contentWidth d) w = true →
     setContentWidth w d = set_hasContentWidth true d
     ∧ emitted (setContentWidth w d) = emitted d
     ∧ contentWidth (setContentWidth w d) = contentWidth d
     ∧ ∃ d', updateLayout (S n) (setContentWidth w d) = Some d'
             ∧ contentWidth d' = contentWidth d
             ∧ filter (λ s, s = ContentWidthChanged) (emitted d')
               = filter (λ s, s = ContentWidthChanged) (emitted d))
  ∧ (qFuzzyCompare (contentHeight d) h = true →
     setContentHeight h d = set_hasContentHeight true d
     ∧ emitted (setContentHeight h d) = emitted d
     ∧ contentHeight (setContentHeight h d) = contentHeight d
     ∧ ∃ d', updateLayout (S n) (setContentHeight h d) = Some d'
             ∧ contentHeight d' = contentHeight d
             ∧ filter (λ s, s = ContentHeightChanged) (emitted d')
               = filter (λ s, s = ContentHeightChanged) (emitted d)).
Proof.
  split; [intros v; apply setContentWidth_flag|].
  split; [intros v; apply setContentHeight_flag|].
  split; intros Hq.
  - assert (He : setContentWidth w d = set_hasContentWidth true d).
    { unfold setContentWidth.
      change (contentWidth (set_hasContentWidth true d)) with (contentWidth d).
      now rewrite Hq. }
    rewrite He. repeat split.
    exists (layout (set_hasContentWidth true d)).
    split; [apply updateLayout_layout|].
    pose proof (layout_widthView (set_hasContentWidth true d) eq_refl) as Hv.
    unfold widthView in Hv. injection Hv as _ H2 H3. auto.
  - assert (He : setContentHeight h d = set_hasContentHeight true d).
    { unfold setContentHeight.
      change (contentHeight (set_hasContentHeight true d))
        with (contentHeight d).
      now rewrite Hq. }
    rewrite He. repeat split.
    exists (layout (set_hasContentHeight true d)).
    split; [apply updateLayout_layout|].
    pose proof (layout_heightView (set_hasContentHeight true d) eq_refl) as Hv.
    unfold heightView in Hv. injection Hv as _ H2 H3. auto.
Qed.

Lemma setContentSize_equal_value_witness :
  qFuzzyCompare (contentWidth threeBar) 0 = true
  ∧ setContentWidth 0 threeBar = set_hasContentWidth true threeBar
  ∧ ∃ d', updateLayout 1 (setContentWidth 0 threeBar) = Some d'
          ∧ contentWidth d' = contentWidth threeBar.
Proof.
  split; [reflexivity|].
  destruct (proj1 (proj2 (proj2 (setContentSize_equal_value 0 0 0 threeBar)))
              eq_refl) as (H1 & _ & _ & d' & H2 & H3 & _).
  split; [exact H1|]. exists d'. split; [exact H2|exact H3].
Defined.

(** ** Resetting the override *)

Lemma publish_derived_width tw mh d :
  hasContentWidth d = false →
  qFuzzyCompare (contentWidth (publishContentSize tw mh d)) tw = true.
Proof.
  intros H. unfold publishContentSize. rewrite H. cbn.
  destruct (qFuzzyCompare (contentWidth d) tw) eqn:E; cbn.
  - destruct (negb (hasContentHeight d) && _); exact E.
  - destruct (negb (hasContentHeight d) && _); apply qFuzzyCompare_refl.
Qed.


Lemma publish_stored_width tw mh d :
  hasContentWidth d = false →
  contentWidth (publishContentSize tw mh d) = tw
  ∨ (contentWidth (publishContentSize tw mh d) = contentWidth d
     ∧ qFuzzyCompare (contentWidth d) tw = true).
Proof.
  intros H. unfold publishContentSize. rewrite H. cbn.
  destruct (qFuzzyCompare (contentWidth d) tw) eqn:E; cbn;
    destruct (negb (hasContentHeight d) && _); auto.
Qed.

Lemma publish_stored_height tw mh d :
  hasContentHeight d = false →
  contentHeight (publishContentSize tw mh d) = mh
  ∨ (contentHeight (publishContentSize tw mh d) = contentHeight d
     ∧ qFuzzyCompare (contentHeight d) mh = true).
Proof.
  intros H. unfold publishContentSize.
  destruct (negb (hasContentWidth d) && _); cbn; rewrite H; cbn;
    destruct (qFuzzyCompare (contentHeight d) mh) eqn:E; cbn; auto.
Qed.

(** C7, as the code has it.  While the content width is overridden,
    [resetContentWidth] clears the flag and, in a completed control, runs
    [updateLayout] at once on the state with the flag cleared.  With at
    least one child and a content item the derived width then takes over:
    the stored content width becomes the derived total width, unless the
    formerly overriding value was already fuzzy-equal to it and stays.
    With no child or no content item [updateLayout] returns at once and
    the formerly overriding value stays stored.  In a control under
    construction the call only clears the flag.  When the content width
    is not overridden the call returns the state as it is.  In all cases
    the call returns with the flag down.  The same holds for
    [resetContentHeight]. *)
Theorem resetContentSize_spec (n : nat) (d : TabBar) :
  (hasContentWidth d = true →
   (isComponentComplete d = true →
    ∃ d', resetContentWidth (S n) d = Some d'
          ∧ updateLayout (S n) (set_hasContentWidth false d) = Some d'
          ∧ hasContentWidth d' = false
          ∧ ((1 <= count d)%Z → is_Some (contentItem d) →
             contentWidth d' = derivedWidth d
             ∨ (contentWidth d' = contentWidth d
                ∧ qFuzzyCompare (contentWidth d) (derivedWidth d) = true))
          ∧ ((count d <= 0)%Z ∨ contentItem d = None →
             d' = set_hasContentWidth false d))
   ∧ (isComponentComplete d = false →
      resetContentWidth (S n) d = Some (set_hasContentWidth false d)))
  ∧ (hasContentWidth d = false → resetContentWidth (S n) d = Some d)
  ∧ (hasContentHeight d = true →
     (isComponentComplete d = true →
      ∃ d', resetContentHeight (S n) d = Some d'
            ∧ updateLayout (S n) (set_hasContentHeight false d) = Some d'
            ∧ hasContentHeight d' = false
            ∧ ((1 <= count d)%Z → is_Some (contentItem d) →
               contentHeight d' = derivedHeight d
               ∨ (contentHeight d' = contentHeight d
                  ∧ qFuzzyCompare (contentHeight d) (derivedHeight d) = true))
            ∧ ((count d <= 0)%Z ∨ contentItem d = None →
               d' = set_hasContentHeight false d))
     ∧ (isComponentComplete d = false →
        resetContentHeight (S n) d = Some (set_hasContentHeight false d)))
  ∧ (hasContentHeight d = false → resetContentHeight (S n) d = Some d).
Proof.
  split; [|split; [|split]].
  - intros Hf. split; intros Hc.
    + exists (layout (set_hasContentWidth false d)).
      unfold resetContentWidth. rewrite Hf. cbn [negb].
      change (isComponentComplete (set_hasContentWidth false d))
        with (isComponentComplete d).
      rewrite Hc. split; [apply updateLayout_layout|].
      split; [apply updateLayout_layout|].
      split; [now rewrite layout_hasContentWidth|]. split.
      * intros Hn [cw Hi].
        rewrite (layout_work (set_hasContentWidth false d) cw)
          by (assumption || (unfold count in *; cbn; lia)).
        pose proof (publish_stored_width
                      (totalWidth (measure d) + totalSpacing d)
                      (maxHeight (measure d))
                      (resizedState cw (set_hasContentWidth false d))) as Hs.
        rewrite resizedState_hasContentWidth, resizedState_contentWidth in Hs.
        exact (Hs eq_refl).
      * intros Hidle. now apply layout_idle.
    + unfold resetContentWidth. rewrite Hf. cbn [negb].
      change (isComponentComplete (set_hasContentWidth false d))
        with (isComponentComplete d).
      now rewrite Hc.
  - intros Hf. unfold resetContentWidth. now rewrite Hf.
  - intros Hf. split; intros Hc.
    + exists (layout (set_hasContentHeight false d)).
      unfold resetContentHeight. rewrite Hf. cbn [negb].
      change (isComponentComplete (set_hasContentHeight false d))
        with (isComponentComplete d).
      rewrite Hc. split; [apply updateLayout_layout|].
      split; [apply updateLayout_layout|].
      split; [now rewrite layout_hasContentHeight|]. split.
      * intros Hn [cw Hi].
        rewrite (layout_work (set_hasContentHeight false d) cw)
          by (assumption || (unfold count in *; cbn; lia)).
        pose proof (publish_stored_height
                      (totalWidth (measure d) + totalSpacing d)
                      (maxHeight (measure d))
                      (resizedState cw (set_hasContentHeight false d))) as Hs.
        rewrite resizedState_hasContentHeight, resizedState_contentHeight in Hs.
        exact (Hs eq_refl).
      * intros Hidle. now apply layout_idle.
    + unfold resetContentHeight. rewrite Hf. cbn [negb].
      change (isComponentComplete (set_hasContentHeight false d))
        with (isComponentComplete d).
      now rewrite Hc.
  - intros Hf. unfold resetContentHeight. now rewrite Hf.
Qed.

Lemma resetContentSize_spec_witness :
  hasContentWidth (setContentWidth 120 staleBar) = true
  ∧ isComponentComplete (setContentWidth 120 staleBar) = true
  ∧ (1 <= count (setContentWidth 120 staleBar))%Z
  ∧ is_Some (contentItem (setContentWidth 120 staleBar))
  ∧ ∃ d', resetContentWidth 1 (setContentWidth 120 staleBar) = Some d'
          ∧ hasContentWidth d' = false
          ∧ contentWidth d' = 200%Q.
Proof.
  assert (Hn : (1 <= count (setContentWidth 120 staleBar))%Z)
    by (vm_compute; discriminate).
  assert (Hi : is_Some (contentItem (setContentWidth 120 staleBar)))
    by (eexists; reflexivity).
  split; [reflexivity|]. split; [reflexivity|].
  split; [exact Hn|]. split; [exact Hi|].
  destruct (proj1 (proj1 (resetContentSize_spec 0 (setContentWidth 120 staleBar))
                     eq_refl) eq_refl)
    as (d' & H1 & _ & H2 & H3 & _).
  exists d'. split; [exact H1|]. split; [exact H2|].
  destruct (H3 Hn Hi) as [H|[_ H]]; [exact H|].
  vm_compute in H. discriminate H.
Defined.

(** C7 as stated fails: in the completed control [staleBar], whose
    content width is not overridden, [resetContentWidth] returns at once
    and the stale content width 0 stays, whereas a run of [updateLayout]
    stores the derived width 200; likewise for the height (stored 0,
    derived 20). *)
Lemma resetContentSize_skips_layout :
  run 1 2 [EvComponentComplete;
           EvEnvironment threeButtons [1; 2; 3]%nat (Some 300%Q) 10%Q]
    emptyBar = Some staleBar
  ∧ isComponentComplete staleBar = true
  ∧ resetContentWidth 1 staleBar = Some staleBar
  ∧ resetContentWidth 1 staleBar
    ≠ updateLayout 1 (set_hasContentWidth false staleBar)
  ∧ resetContentHeight 1 staleBar = Some staleBar
  ∧ resetContentHeight 1 staleBar
    ≠ updateLayout 1 (set_hasContentHeight false staleBar).
Proof.
  split; [apply run_steps|]. split; [reflexivity|].
  split; [reflexivity|]. split; [|split; [reflexivity|]].
  - intros H. apply (f_equal (fmap contentWidth)) in H.
    vm_compute in H. discriminate H.
  - intros H. apply (f_equal (fmap contentHeight)) in H.
    vm_compute in H. discriminate H.
Qed.

(** ** Selection *)

Lemma item_set_checked_id it :
  checked it = true → item_set_checked true it = it.
Proof. destruct it. cbn. now intros ->. Qed.

(** C5. When [updateCurrentIndex] runs on behalf of a tab button (the
    sender) whose checked flag is now true, it returns with
    [currentIndex] equal to the index of that button in the collection,
    and changes nothing else but the signal log; when the sender's flag is
    now false the state is returned as it is. *)
Theorem checked_sets_currentIndex (fuel : nat) (d : TabBar) (p : nat)
    (it : QQuickItem) (i : nat) :
  heap d !! p = Some it → isTabButton it = true →
  (checked it = true →
   contentModel d !! i = Some p →
   (∀ j, (j < i)%nat → contentModel d !! j ≠ Some p) →
   ∃ d', updateCurrentIndex (S fuel) (Some p) d = Some d'
         ∧ currentIndex d' = Z.of_nat i
         ∧ d' = (if (currentIndex d =? Z.of_nat i)%Z then d
                 else emit CurrentIndexChanged
                        (set_currentIndex (Z.of_nat i) d)))
  ∧ (checked it = false → updateCurrentIndex fuel (Some p) d = Some d).
Proof.
  intros Hp Ht.
  assert (Hc : tabButton_cast d (Some p) = Some p).
  { apply tabButton_cast_Some. eauto. }
  split.
  - intros Hk Hi Hfirst.
    assert (Hidx : indexOf d p = Z.of_nat i).
    { unfold indexOf. rewrite (indexOf_from_first _ _ _ i Hi Hfirst). lia. }
    rewrite updateCurrentIndex_selectIndex. unfold selectIndex, isChecked.
    rewrite Hc, Hp, Hk, Hidx. eexists. split; [reflexivity|].
    split; [|reflexivity].
    destruct (Z.eqb_spec (currentIndex d) (Z.of_nat i)); [assumption|].
    reflexivity.
  - intros Hk. unfold updateCurrentIndex, updateCurrentIndex_body, isChecked.
    now rewrite Hc, Hp, Hk.
Qed.

Lemma checked_sets_currentIndex_witness :
  heap clickedBar !! 3%nat = Some (item_set_checked true (tabButton 70))
  ∧ ∃ d', updateCurrentIndex 1 (Some 3%nat) clickedBar = Some d'
          ∧ currentIndex d' = 2%Z.
Proof.
  split; [reflexivity|].
  destruct (proj1 (checked_sets_currentIndex 0 clickedBar 3
                     (item_set_checked true (tabButton 70)) 2
                     eq_refl eq_refl) eq_refl eq_refl)
    as (d' & H1 & H2 & _).
  - intros j Hj. destruct j as [|[|j]]; [discriminate|discriminate|lia].
  - exists d'. split; [exact H1|exact H2].
Defined.

Lemma selectItem_at d p it :
  get d (currentIndex d) = Some p → heap d !! p = Some it →
  isTabButton it = true →
  (checked it = true ∧ selectItem d = d)
  ∨ (checked it = false
     ∧ heap (selectItem d)
       = exclusiveHeap p (contentModel d)
           (<[p := item_set_checked true it]> (heap d))
     ∧ contentModel (selectItem d) = contentModel d).
Proof.
  intros Hg Hp Ht.
  assert (Hc : tabButton_cast d (get d (currentIndex d)) = Some p)
    by (apply tabButton_cast_Some; eauto).
  unfold selectItem. rewrite Hc. unfold isChecked. rewrite Hp.
  destruct (checked it); [now left|]. right. split; [reflexivity|].
  unfold checkButton. rewrite Hp. cbn. now destruct (_ =? _)%Z.
Qed.

(** C6. [updateCurrentItem] looks up the child at [currentIndex]: when
    it is a tab button, the call returns a state in which that button is
    checked; no object changed in anything but its checked flag and, if
    the button had to be checked, it is now the only checked tab button
    of the collection, the others having cleared their flag; objects
    outside the collection are as before.  When the lookup misses
    (negative index, index past the end, or no tab button at that
    address) the call returns the state as it is. *)
Theorem currentIndex_checks_item (fuel : nat) (d : TabBar) :
  (∀ p it, get d (currentIndex d) = Some p → heap d !! p = Some it →
           isTabButton it = true →
           ∃ d', updateCurrentItem (S (S fuel)) d = Some d'
                 ∧ isChecked d' p = true
                 ∧ heap d' !! p = Some (item_set_checked true it)
                 ∧ (∀ q, heap d' !! q
                         = item_set_checked (isChecked d' q) <$> heap d !! q)
                 ∧ (checked it = false →
                    ∀ q it', q ∈ contentModel d → q ≠ p →
                             heap d' !! q = Some it' → isTabButton it' = true →
                             checked it' = false)
                 ∧ (∀ q, q ∉ contentModel d → q ≠ p →
                         heap d' !! q = heap d !! q)
                 ∧ contentModel d' = contentModel d)
  ∧ (((currentIndex d < 0)%Z
      ∨ (count d <= currentIndex d)%Z
      ∨ ∃ p, get d (currentIndex d) = Some p
             ∧ ∀ it, heap d !! p = Some it → isTabButton it = false) →
     updateCurrentItem (S fuel) d = Some d).
Proof.
  split.
  - intros p it Hg Hp Ht.
    rewrite updateCurrentItem_selectItem. eexists. split; [reflexivity|].
    destruct (selectItem_at d p it Hg Hp Ht) as [[Hk ->]|(Hk & Hh & Hm)].
    + unfold isChecked. rewrite Hp, Hk.
      split; [reflexivity|].
      split; [now rewrite item_set_checked_same|].
      split; [|split; [congruence|split; [reflexivity|reflexivity]]].
      intros q. destruct (heap d !! q) as [x|]; [|reflexivity].
      cbn. now rewrite item_set_checked_same.
    + assert (Hl : ∀ q, heap (selectItem d) !! q
                  = if decide (q = p) then Some (item_set_checked true it)
                    else if decide (q ∈ contentModel d)
                         then unchecked <$> heap d !! q else heap d !! q).
      { intros q. rewrite Hh, exclusiveHeap_lookup.
        destruct (decide (q = p)) as [->|Hqp].
        - rewrite decide_False by (intros [_ H]; congruence).
          apply lookup_insert_eq.
        - rewrite lookup_insert_ne by congruence.
          destruct (decide (q ∈ contentModel d)) as [Hin|Hout].
          + now rewrite decide_True by (split; assumption).
          + rewrite decide_False; [reflexivity|]. now intros [H _]. }
      unfold isChecked.
      split; [now rewrite Hl, decide_True by reflexivity|].
      split; [now rewrite Hl, decide_True by reflexivity|].
      split; [|split; [|split; [|exact Hm]]].
      * intros q. rewrite Hl. destruct (decide (q = p)) as [->|Hqp].
        -- now rewrite Hp.
        -- destruct (decide (q ∈ contentModel d)) as [Hin|Hout];
             destruct (heap d !! q) as [x|]; cbn; try reflexivity.
           ++ f_equal. unfold unchecked.
              destruct (isTabButton x); cbn;
                [reflexivity|now rewrite item_set_checked_same].
           ++ now rewrite item_set_checked_same.
      * intros _ q it' Hin Hqp Hq Hb. rewrite Hl in Hq.
        rewrite decide_False in Hq by exact Hqp.
        rewrite decide_True in Hq by exact Hin.
        destruct (heap d !! q) as [x|]; [|discriminate].
        injection Hq as <-. unfold unchecked in *.
        destruct (isTabButton x) eqn:E; [reflexivity|]. cbn in Hb. congruence.
      * intros q Hout Hqp. rewrite Hl.
        rewrite decide_False by exact Hqp. now rewrite decide_False by exact Hout.
  - intros Hmiss.
    assert (Hc : tabButton_cast d (get d (currentIndex d)) = None).
    { destruct (tabButton_cast d (get d (currentIndex d))) as [q|] eqn:E;
        [|reflexivity].
      exfalso. apply tabButton_cast_Some in E as [Hg (it & Hq & Ht)].
      pose proof (get_Some _ _ _ Hg) as [Hpos Hl].
      destruct Hmiss as [Hneg|[Hbig|(p & Hg' & Hnb)]].
      - lia.
      - apply lookup_lt_Some in Hl. unfold count in Hbig. lia.
      - rewrite Hg in Hg'. injection Hg' as ->.
        rewrite (Hnb it Hq) in Ht. discriminate. }
    cbn [updateCurrentItem]. unfold updateCurrentItem_body. now rewrite Hc.
Qed.

Lemma currentIndex_checks_item_witness :
  get reselectBar (currentIndex reselectBar) = Some 2%nat
  ∧ heap reselectBar !! 2%nat = Some (tabButton 60)
  ∧ isChecked reselectBar 3 = true
  ∧ ∃ d', updateCurrentItem 2 reselectBar = Some d'
          ∧ isChecked d' 2 = true ∧ isChecked d' 3 = false.
Proof.
  split; [reflexivity|]. split; [reflexivity|]. split; [reflexivity|].
  destruct (proj1 (currentIndex_checks_item 0 reselectBar) 2%nat (tabButton 60)
              eq_refl eq_refl eq_refl) as (d' & H1 & H2 & _ & H3 & H4 & _).
  exists d'. split; [exact H1|]. split; [exact H2|].
  pose proof (H3 3%nat) as H5. unfold isChecked in *.
  destruct (heap d' !! 3%nat) as [x|] eqn:E; [|reflexivity].
  apply (H4 eq_refl 3%nat x);
    [apply list_elem_of_In; cbn; auto|discriminate|exact E|].
  change (heap reselectBar !! 3%nat)
    with (Some (item_set_checked true (tabButton 70))) in H5.
  cbn in H5. now injection H5 as ->.
Defined.

(** * Further properties of the code *)

(** ** What [updateLayout] leaves alone *)

Lemma publish_frame tw mh d :
  set_emitted (emitted (publishContentSize tw mh d))
    (set_contentHeight (contentHeight (publishContentSize tw mh d))
       (set_contentWidth (contentWidth (publishContentSize tw mh d)) d))
  = publishContentSize tw mh d.
Proof. publish_cases d; reflexivity. Qed.

Lemma layout_frame d :
  set_emitted (emitted (layout d))
    (set_contentHeight (contentHeight (layout d))
       (set_contentWidth (contentWidth (layout d))
          (set_updatingLayout (updatingLayout (layout d))
             (set_heap (heap (layout d)) d))))
  = layout d.
Proof.
  destruct (layout_cases d) as [H|(cw & _ & _ & H)]; rewrite H.
  - now destruct d.
  - rewrite <- publish_frame at 6.
    rewrite publish_heap, publish_updatingLayout.
    unfold resizedState, applyResize.
    destruct (resizableItems (measure d)); [now destruct d|reflexivity].
Qed.

Lemma item_set_width_id it : item_set_width (width it) it = it.
Proof. now destruct it. Qed.

Lemma resized_only_width w it :
  widthValid it = false →
  resized w it = item_set_width (width (resized w it)) it.
Proof.
  intros Hv. unfold resized.
  destruct (Qeq_bool (width it) w); destruct it; cbn in *; now subst.
Qed.

Lemma publish_emitted tw mh d :
  ∃ w h : bool,
    emitted (publishContentSize tw mh d)
    = (if h then [ContentHeightChanged] else [])
      ++ (if w then [ContentWidthChanged] else []) ++ emitted d.
Proof.
  publish_cases d;
    first [now exists false, false | now exists true, false
          | now exists false, true | now exists true, true].
Qed.

Lemma layout_heap_only_width d p :
  heap (layout d) !! p
  = item_set_width (widthOf (layout d) p) <$> heap d !! p.
Proof.
  unfold widthOf. rewrite layout_heap_lookup.
  destruct (contentItem d) as [cw|].
  - destruct (decide (p ∈ resizableItems (measure d))) as [Hin|_].
    + apply elem_of_resizableItems in Hin as [_ (it & Hp & Hv)].
      rewrite Hp. cbn. f_equal. now apply resized_only_width.
    + destruct (heap d !! p) as [it|]; [|reflexivity].
      cbn. now rewrite item_set_width_id.
  - destruct (heap d !! p) as [it|]; [|reflexivity].
    cbn. now rewrite item_set_width_id.
Qed.

(** X6. A run of [updateLayout] changes nothing but the widths of
    children, the guard, the stored content size and the signal log: the
    collection, the content item, the spacing, the current index, the
    completion flag, the position and both override flags are as before,
    no object appears or disappears, and every object keeps all its
    attributes except possibly [width] (its explicit-width flag
    included).  The log grows by at most one [contentWidthChanged]
    followed by at most one [contentHeightChanged], and by nothing
    else. *)
Theorem updateLayout_frame (n : nat) (d : TabBar) :
  ∃ d', updateLayout (S n) d = Some d'
        ∧ contentModel d' = contentModel d
        ∧ contentItem d' = contentItem d
        ∧ spacing d' = spacing d
        ∧ currentIndex d' = currentIndex d
        ∧ isComponentComplete d' = isComponentComplete d
        ∧ position d' = position d
        ∧ hasContentWidth d' = hasContentWidth d
        ∧ hasContentHeight d' = hasContentHeight d
        ∧ (∀ p, heap d' !! p = item_set_width (widthOf d' p) <$> heap d !! p)
        ∧ ∃ w h : bool,
            emitted d'
            = (if h then [ContentHeightChanged] else [])
              ++ (if w then [ContentWidthChanged] else []) ++ emitted d.
Proof.
  exists (layout d). split; [apply updateLayout_layout|].
  pose proof (layout_frame d) as Hf.
  repeat (split; [now rewrite <- Hf|]).
  split; [apply layout_heap_only_width|].
  destruct (layout_cases d) as [->|(cw & _ & _ & ->)];
    [now exists false, false|].
  rewrite <- (resizedState_emitted cw d). apply publish_emitted.
Qed.

(** ** Notifications follow the stored values *)

Lemma announced_refl {A} (value : TabBar → A) s d : announced value s d d.
Proof. left. split; reflexivity. Qed.

Lemma announced_from {A} (value : TabBar → A) s d d1 d2 :
  value d1 = value d → sent s d1 = sent s d →
  announced value s d1 d2 → announced value s d d2.
Proof. unfold announced. intros <- <-. auto. Qed.

Lemma announced_same {A} (value : TabBar → A) s d d' :
  value d' = value d → sent s d' = sent s d → announced value s d d'.
Proof. left. split; assumption. Qed.

Lemma notified_refl {A} (value : TabBar → A) s d : notified value s d d.
Proof. left. split; reflexivity. Qed.

Lemma notified_from {A} (value : TabBar → A) s d d1 d2 :
  value d1 = value d → sent s d1 = sent s d →
  notified value s d1 d2 → notified value s d d2.
Proof. unfold notified. intros <- <-. auto. Qed.

Lemma notified_same {A} (value : TabBar → A) s d d' :
  value d' = value d → sent s d' = sent s d → notified value s d d'.
Proof. left. split; assumption. Qed.

Lemma publish_notified_width tw mh d :
  notified contentWidth ContentWidthChanged d (publishContentSize tw mh d).
Proof.
  unfold notified, sent. publish_cases d; try discriminate;
    try (left; split; reflexivity);
    right; reflexivity.
Qed.

Lemma publish_notified_height tw mh d :
  notified contentHeight ContentHeightChanged d
    (publishContentSize tw mh d).
Proof.
  unfold notified, sent. publish_cases d; try discriminate;
    try (left; split; reflexivity);
    right; reflexivity.
Qed.

Lemma layout_notified_width d :
  notified contentWidth ContentWidthChanged d (layout d).
Proof.
  destruct (layout_cases d) as [->|(cw & _ & _ & ->)];
    [apply notified_refl|].
  apply (notified_from _ _ _ (resizedState cw d));
    [apply resizedState_contentWidth| |apply publish_notified_width].
  unfold sent. now rewrite resizedState_emitted.
Qed.

Lemma layout_notified_height d :
  notified contentHeight ContentHeightChanged d (layout d).
Proof.
  destruct (layout_cases d) as [->|(cw & _ & _ & ->)];
    [apply notified_refl|].
  apply (notified_from _ _ _ (resizedState cw d));
    [apply resizedState_contentHeight| |apply publish_notified_height].
  unfold sent. now rewrite resizedState_emitted.
Qed.

Lemma widthView_notified d d' :
  widthView d' = widthView d →
  notified contentWidth ContentWidthChanged d d'.
Proof. unfold widthView. intros [= _ H1 H2]. now apply notified_same. Qed.

Lemma heightView_notified d d' :
  heightView d' = heightView d →
  notified contentHeight ContentHeightChanged d d'.
Proof. unfold heightView. intros [= _ H1 H2]. now apply notified_same. Qed.

Lemma setContentWidth_notified w d :
  notified contentWidth ContentWidthChanged d (setContentWidth w d).
Proof.
  unfold setContentWidth.
  change (contentWidth (set_hasContentWidth true d)) with (contentWidth d).
  destruct (qFuzzyCompare (contentWidth d) w) eqn:E.
  - now apply notified_same.
  - now right.
Qed.

Lemma setContentHeight_notified h d :
  notified contentHeight ContentHeightChanged d (setContentHeight h d).
Proof.
  unfold setContentHeight.
  change (contentHeight (set_hasContentHeight true d)) with (contentHeight d).
  destruct (qFuzzyCompare (contentHeight d) h) eqn:E.
  - now apply notified_same.
  - now right.
Qed.

Lemma step_notified_width e d :
  notified contentWidth ContentWidthChanged d (step e d).
Proof.
  destruct e; cbn [step];
    repeat match goal with
           | |- context [if ?b then _ else _] => destruct b
           end;
    try apply notified_refl; try apply layout_notified_width.
  - apply (notified_from _ _ _ (selectItem (set_isComponentComplete true d)));
      [| |apply layout_notified_width];
      pose proof (proj1 (selectItem_views (set_isComponentComplete true d)))
        as [= _ H1 H2]; assumption.
  - apply setContentWidth_notified.
  - apply (notified_from _ _ _ (set_hasContentWidth false d));
      [reflexivity|reflexivity|apply layout_notified_width].
  - now apply notified_same.
  - apply widthView_notified, setContentHeight_widthView.
  - apply (notified_from _ _ _ (set_hasContentHeight false d));
      [reflexivity|reflexivity|apply layout_notified_width].
  - now apply notified_same.
  - apply widthView_notified, setPosition_views.
  - apply widthView_notified, selectIndex_views.
  - apply widthView_notified. now rewrite (proj1 (selectItem_views _)).
  - now apply notified_same.
Qed.

Lemma step_notified_height e d :
  notified contentHeight ContentHeightChanged d (step e d).
Proof.
  destruct e; cbn [step];
    repeat match goal with
           | |- context [if ?b then _ else _] => destruct b
           end;
    try apply notified_refl; try apply layout_notified_height.
  - apply (notified_from _ _ _ (selectItem (set_isComponentComplete true d)));
      [| |apply layout_notified_height];
      pose proof (proj2 (selectItem_views (set_isComponentComplete true d)))
        as [= _ H1 H2]; assumption.
  - apply heightView_notified, setContentWidth_heightView.
  - apply (notified_from _ _ _ (set_hasContentWidth false d));
      [reflexivity|reflexivity|apply layout_notified_height].
  - now apply notified_same.
  - apply setContentHeight_notified.
  - apply (notified_from _ _ _ (set_hasContentHeight false d));
      [reflexivity|reflexivity|apply layout_notified_height].
  - now apply notified_same.
  - apply heightView_notified, setPosition_views.
  - apply heightView_notified, selectIndex_views.
  - apply heightView_notified. now rewrite (proj2 (selectItem_views _)).
  - now apply notified_same.
Qed.

(** X5. Whatever the event, a handler of this file either leaves the
    stored content width and the log of [contentWidthChanged] as they
    were, or emits [contentWidthChanged] exactly once: a change of the
    stored content width never goes unannounced, and no event announces
    twice.  Likewise for [contentHeightChanged] and the stored content
    height. *)
Theorem content_size_announced (n m : nat) (e : Event) (d : TabBar) :
  ∃ d', handle (S n) (S (S m)) e d = Some d'
        ∧ notified contentWidth ContentWidthChanged d d'
        ∧ notified contentHeight ContentHeightChanged d d'.
Proof.
  exists (step e d). split; [apply handle_step|].
  split; [apply step_notified_width|apply step_notified_height].
Qed.

(** ** The derived content height *)

Lemma layout_contentModel d : contentModel (layout d) = contentModel d.
Proof. pose proof (layout_frame d) as H. now rewrite <- H. Qed.








(** ** Selection: fixed points and bounds *)

Lemma selectItem_synced_id d : currentItemSynced d → selectItem d = d.
Proof.
  unfold currentItemSynced, selectItem.
  destruct (tabButton_cast d (get d (currentIndex d))) as [p|]; [|reflexivity].
  now intros ->.
Qed.

Lemma selectItem_synced d : currentItemSynced (selectItem d).
Proof.
  unfold selectItem.
  destruct (tabButton_cast d (get d (currentIndex d))) as [p|] eqn:Hc.
  - destruct (isChecked d p) eqn:Hk.
    + unfold currentItemSynced. now rewrite Hc.
    + pose proof Hc as Hc'.
      apply tabButton_cast_Some in Hc' as [Hg (it & Hp & Ht)].
      pose proof (checkButton_lookup p d it Hp) as Hp1.
      pose proof (checkButton_frame p d) as Hfr.
      set (d1 := checkButton p d) in *.
      assert (Hm1 : contentModel d1 = contentModel d) by now rewrite <- Hfr.
      assert (Hin : p ∈ contentModel d1).
      { rewrite Hm1. apply get_Some in Hg as [_ Hg].
        apply list_elem_of_lookup. eauto. }
      assert (Hgoal : ∀ d', heap d' = heap d1 →
                contentModel d' = contentModel d1 →
                currentIndex d' = indexOf d1 p → currentItemSynced d').
      { intros d' Hh Hm Hi. unfold currentItemSynced.
        assert (Hg' : get d' (currentIndex d') = Some p).
        { rewrite Hi. unfold get. rewrite Hm.
          exact (get_indexOf d1 p Hin). }
        rewrite Hg'.
        assert (Hc1 : tabButton_cast d' (Some p) = Some p).
        { apply tabButton_cast_Some. split; [reflexivity|].
          exists (item_set_checked true it). now rewrite Hh. }
        rewrite Hc1. unfold isChecked. now rewrite Hh, Hp1. }
      destruct (Z.eqb_spec (currentIndex d1) (indexOf d1 p)) as [E|E];
        apply Hgoal; try reflexivity. exact E.
  - unfold currentItemSynced. now rewrite Hc.
Qed.

(** X11. [updateCurrentItem] settles at once: run again on the state it
    returned, with nothing changed in between, it returns that state as it
    is; the signal cascade it starts does not keep itself going. *)
Theorem updateCurrentItem_idempotent (n m : nat) (d : TabBar) :
  ∃ d1, updateCurrentItem (S (S n)) d = Some d1
        ∧ updateCurrentItem (S (S m)) d1 = Some d1.
Proof.
  exists (selectItem d). split; [apply updateCurrentItem_selectItem|].
  rewrite updateCurrentItem_selectItem. f_equal.
  apply selectItem_synced_id, selectItem_synced.
Qed.

Lemma indexOf_from_range l p k :
  indexOf_from l p k = (-1)%Z
  ∨ (k <= indexOf_from l p k < k + Z.of_nat (length l))%Z.
Proof.
  destruct (decide (p ∈ l)) as [Hin|Hout].
  - right. destruct (indexOf_from_elem l p k Hin) as (i & -> & Hl).
    apply lookup_lt_Some in Hl. lia.
  - left. now apply indexOf_from_miss.
Qed.

(** X12. [updateCurrentIndex] changes nothing but the current index and
    the signal log; the index it leaves is the old one or lies between -1
    and [count - 1].  Without a sender, or with a sender that is not a tab
    button, the state is returned as it is; a checked tab button that is
    not in the collection sets the current index to -1. *)
Theorem updateCurrentIndex_bounds (n : nat) (sender : option nat)
    (d : TabBar) :
  ∃ d', updateCurrentIndex (S n) sender d = Some d'
        ∧ set_emitted (emitted d') (set_currentIndex (currentIndex d') d) = d'
        ∧ (currentIndex d' = currentIndex d
           ∨ (-1 <= currentIndex d' < count d)%Z)
        ∧ announced currentIndex CurrentIndexChanged d d'
        ∧ (tabButton_cast d sender = None → d' = d)
        ∧ (∀ p, tabButton_cast d sender = Some p → isChecked d p = true →
                p ∉ contentModel d → currentIndex d' = (-1)%Z).
Proof.
  exists (selectIndex sender d).
  split; [apply updateCurrentIndex_selectIndex|].
  unfold selectIndex.
  destruct (tabButton_cast d sender) as [p|] eqn:Hc.
  - destruct (isChecked d p) eqn:Hk.
    + destruct (Z.eqb_spec (currentIndex d) (indexOf d p)) as [E|E].
      * split; [now destruct d|]. split; [now left|].
        split; [apply announced_refl|]. split; [discriminate|].
        intros q [= <-] _ Hout. rewrite E. unfold indexOf.
        now apply indexOf_from_miss.
      * split; [reflexivity|]. cbn [currentIndex emit set_emitted
                                     set_currentIndex].
        split; [|split; [|split; [discriminate|]]].
        -- right. unfold indexOf, count.
           destruct (indexOf_from_range (contentModel d) p 0) as [->|H]; lia.
        -- right. split; [|reflexivity]. intros H. apply E. symmetry. exact H.
        -- intros q [= <-] _ Hout. unfold indexOf.
           now apply indexOf_from_miss.
    + split; [now destruct d|]. split; [now left|].
      split; [apply announced_refl|]. split; [discriminate|].
      intros q [= <-] H. congruence.
  - split; [now destruct d|]. split; [now left|].
    split; [apply announced_refl|]. split; [reflexivity|].
    intros q H. discriminate H.
Qed.

Lemma checkButton_lookup_all p d it q :
  heap d !! p = Some it →
  heap (checkButton p d) !! q
  = if decide (q = p) then Some (item_set_checked true it)
    else if decide (q ∈ contentModel d)
         then unchecked <$> heap d !! q else heap d !! q.
Proof.
  intros Hp. unfold checkButton. rewrite Hp. cbn [heap set_heap].
  rewrite exclusiveHeap_lookup. destruct (decide (q = p)) as [->|Hqp].
  - rewrite decide_False by (intros [_ H]; congruence).
    apply lookup_insert_eq.
  - rewrite lookup_insert_ne by congruence.
    destruct (decide (q ∈ contentModel d)) as [Hin|Hout].
    + now rewrite decide_True by (split; assumption).
    + rewrite decide_False; [reflexivity|]. now intros [H _].
Qed.

Lemma checkButton_only_checked p d it q :
  heap d !! p = Some it →
  heap (checkButton p d) !! q
  = item_set_checked (isChecked (checkButton p d) q) <$> heap d !! q.
Proof.
  intros Hp. unfold isChecked. rewrite (checkButton_lookup_all p d it q Hp).
  destruct (decide (q = p)) as [->|Hqp]; [now rewrite Hp|].
  destruct (decide (q ∈ contentModel d));
    destruct (heap d !! q) as [x|]; cbn; try reflexivity.
  - f_equal. unfold unchecked.
    destruct (isTabButton x); cbn;
      [reflexivity|now rewrite item_set_checked_same].
  - now rewrite item_set_checked_same.
Qed.

Lemma checkButton_exclusive p d it q it' :
  heap d !! p = Some it → q ∈ contentModel d → q ≠ p →
  heap (checkButton p d) !! q = Some it' → isTabButton it' = true →
  checked it' = false.
Proof.
  intros Hp Hin Hqp Hq Hb. rewrite (checkButton_lookup_all p d it q Hp) in Hq.
  rewrite decide_False in Hq by exact Hqp.
  rewrite decide_True in Hq by exact Hin.
  destruct (heap d !! q) as [x|]; [|discriminate].
  injection Hq as <-. unfold unchecked in *.
  destruct (isTabButton x) eqn:E; [reflexivity|]. cbn in Hb. congruence.
Qed.

(** X13. Moving the current index to a slot that holds a tab button
    (each child being in the collection once, the slot is the first that
    holds it) synchronises in one go: the index is the new one, the button
    is checked, the tab buttons of the collection that were checked have
    cleared their flag, no object changed in anything but its checked
    flag, and [currentIndexChanged] was emitted once.  The
    [checkedChanged] the button sends back finds the index already right
    and stops there. *)
Theorem setCurrentIndex_syncs_once (n : nat) (d : TabBar) (i p : nat)
    (it : QQuickItem) :
  currentIndex d ≠ Z.of_nat i →
  contentModel d !! i = Some p →
  (∀ j, (j < i)%nat → contentModel d !! j ≠ Some p) →
  heap d !! p = Some it → isTabButton it = true →
  ∃ d', setCurrentIndex (updateCurrentItem (S (S n))) (Z.of_nat i) d = Some d'
        ∧ currentIndex d' = Z.of_nat i
        ∧ isChecked d' p = true
        ∧ (checked it = false →
           ∀ q it', q ∈ contentModel d → q ≠ p →
                    heap d' !! q = Some it' → isTabButton it' = true →
                    checked it' = false)
        ∧ (∀ q, heap d' !! q
                = item_set_checked (isChecked d' q) <$> heap d !! q)
        ∧ emitted d' = CurrentIndexChanged :: emitted d
        ∧ currentItemSynced d'.
Proof.
  intros Hne Hi Hfirst Hp Ht. unfold setCurrentIndex.
  destruct (Z.eqb_spec (currentIndex d) (Z.of_nat i)) as [E|_]; [congruence|].
  set (d2 := emit CurrentIndexChanged (set_currentIndex (Z.of_nat i) d)).
  rewrite updateCurrentItem_selectItem. eexists. split; [reflexivity|].
  assert (Hs : selectItem d2 = if checked it then d2 else checkButton p d2).
  { unfold selectItem.
    change (get d2 (currentIndex d2)) with (get d (Z.of_nat i)).
    rewrite get_of_nat, Hi.
    assert (Hc : tabButton_cast d2 (Some p) = Some p)
      by (apply tabButton_cast_Some; eauto).
    rewrite Hc. unfold isChecked. change (heap d2) with (heap d). rewrite Hp.
    destruct (checked it); [reflexivity|].
    pose proof (checkButton_frame p d2) as Hfr.
    assert (Hidx : indexOf (checkButton p d2) p = Z.of_nat i).
    { unfold indexOf. rewrite <- Hfr.
      change (contentModel (set_heap (heap (checkButton p d2)) d2))
        with (contentModel d).
      rewrite (indexOf_from_first _ _ _ i Hi Hfirst). lia. }
    rewrite Hidx. rewrite <- Hfr at 1.
    change (currentIndex (set_heap (heap (checkButton p d2)) d2))
      with (Z.of_nat i).
    now rewrite Z.eqb_refl. }
  split; [|split; [|split; [|split; [|split; [|apply selectItem_synced]]]]];
    rewrite Hs; destruct (checked it) eqn:Hk.
  - reflexivity.
  - now rewrite <- checkButton_frame.
  - unfold isChecked. change (heap d2) with (heap d). now rewrite Hp, Hk.
  - unfold isChecked. now rewrite (checkButton_lookup p d2 it Hp).
  - discriminate.
  - intros _ q it' Hin Hqp Hq Hb.
    now apply (checkButton_exclusive p d2 it q it' Hp Hin Hqp Hq Hb).
  - intros q. unfold isChecked. change (heap d2) with (heap d).
    destruct (heap d !! q) as [x|]; [|reflexivity].
    cbn. now rewrite item_set_checked_same.
  - intros q. exact (checkButton_only_checked p d2 it q Hp).
  - reflexivity.
  - now rewrite <- checkButton_frame.
Qed.

Lemma setCurrentIndex_syncs_once_witness :
  currentIndex clickedBar ≠ 1%Z
  ∧ isChecked clickedBar 3 = true
  ∧ ∃ d', setCurrentIndex (updateCurrentItem 2) 1 clickedBar = Some d'
          ∧ currentIndex d' = 1%Z
          ∧ isChecked d' 2 = true
          ∧ isChecked d' 3 = false
          ∧ emitted d' = [CurrentIndexChanged].
Proof.
  split; [discriminate|]. split; [reflexivity|].
  destruct (setCurrentIndex_syncs_once 0 clickedBar 1 2 (tabButton 60))
    as (d' & H1 & H2 & H3 & H4 & H5 & H6 & _);
    try reflexivity; try discriminate.
  - intros j Hj. destruct j as [|j]; [discriminate|lia].
  - exists d'. split; [exact H1|]. split; [exact H2|]. split; [exact H3|].
    split; [|exact H6].
    pose proof (H5 3%nat) as H7. unfold isChecked in *.
    destruct (heap d' !! 3%nat) as [x|] eqn:E; [|reflexivity].
    apply (H4 eq_refl 3%nat x);
      [apply list_elem_of_In; cbn; auto|discriminate|exact E|].
    change (heap clickedBar !! 3%nat)
      with (Some (item_set_checked true (tabButton 70))) in H7.
    cbn in H7. now injection H7 as ->.
Defined.

Lemma updateCurrentIndex_bounds_witness :
  tabButton_cast orphanBar (Some 3%nat) = Some 3%nat
  ∧ isChecked orphanBar 3 = true
  ∧ (3%nat ∉ contentModel orphanBar)
  ∧ ∃ d', updateCurrentIndex 1 (Some 3%nat) orphanBar = Some d'
          ∧ currentIndex d' = (-1)%Z.
Proof.
  assert (Hout : 3%nat ∉ contentModel orphanBar).
  { intros H. apply list_elem_of_In in H. cbn in H.
    destruct H as [H|[H|[]]]; discriminate H. }
  split; [reflexivity|]. split; [reflexivity|]. split; [exact Hout|].
  destruct (updateCurrentIndex_bounds 0 (Some 3%nat) orphanBar)
    as (d' & H1 & _ & _ & _ & _ & H2).
  exists d'. split; [exact H1|]. exact (H2 3%nat eq_refl eq_refl Hout).
Defined.

(** ** Construction complete *)

Lemma layout_currentItemSynced d :
  currentItemSynced d → currentItemSynced (layout d).
Proof.
  unfold currentItemSynced.
  assert (Hc : ∀ o, tabButton_cast (layout d) o = tabButton_cast d o).
  { intros [p|]; [|reflexivity]. unfold tabButton_cast. cbn.
    rewrite layout_heap_only_width. now destruct (heap d !! p). }
  assert (Hg : get (layout d) (currentIndex (layout d))
               = get d (currentIndex d)).
  { unfold get. rewrite layout_contentModel.
    pose proof (layout_frame d) as Hf. now rewrite <- Hf. }
  rewrite Hg, Hc.
  destruct (tabButton_cast d (get d (currentIndex d))) as [p|]; [|auto].
  unfold isChecked. rewrite layout_heap_only_width.
  now destruct (heap d !! p).
Qed.

(** X14. [componentComplete] leaves the selection synchronised, the
    layout that runs last notwithstanding: the completion flag is set,
    the tab button at the current index, if there is one, is checked, a
    further [updateCurrentItem] returns the state as it is, and the guard
    is down if it was. *)
Theorem componentComplete_settles (n m : nat) (d : TabBar) :
  ∃ d', componentComplete (S n) (S (S m)) d = Some d'
        ∧ isComponentComplete d' = true
        ∧ (∀ p, tabButton_cast d' (get d' (currentIndex d')) = Some p →
                isChecked d' p = true)
        ∧ updateCurrentItem (S (S m)) d' = Some d'
        ∧ (updatingLayout d = false → updatingLayout d' = false).
Proof.
  exists (layout (selectItem (set_isComponentComplete true d))). split.
  { unfold componentComplete. rewrite updateCurrentItem_selectItem. cbn.
    apply updateLayout_layout. }
  assert (Hsync : currentItemSynced
                    (layout (selectItem (set_isComponentComplete true d))))
    by apply layout_currentItemSynced, selectItem_synced.
  split; [|split; [|split]].
  - pose proof (layout_frame (selectItem (set_isComponentComplete true d)))
      as Hf. rewrite <- Hf. cbn [isComponentComplete set_emitted
        set_contentHeight set_contentWidth set_updatingLayout set_heap].
    unfold selectItem, checkButton.
    destruct (tabButton_cast _ _) as [p|]; [|reflexivity].
    destruct (isChecked _ p); [reflexivity|].
    cbn [heap set_isComponentComplete].
    destruct (heap d !! p); cbn; now destruct (_ =? _)%Z.
  - intros p Hc. unfold currentItemSynced in Hsync. now rewrite Hc in Hsync.
  - rewrite updateCurrentItem_selectItem. f_equal.
    now apply selectItem_synced_id.
  - intros Hu. apply layout_updatingLayout.
    now rewrite selectItem_updatingLayout.
Qed.

Lemma componentComplete_settles_witness :
  updatingLayout indexedBar = false
  ∧ ∃ d', componentComplete 1 2 indexedBar = Some d'
          ∧ isComponentComplete d' = true
          ∧ updateCurrentItem 2 d' = Some d'
          ∧ updatingLayout d' = false.
Proof.
  split; [reflexivity|].
  destruct (componentComplete_settles 0 0 indexedBar)
    as (d' & H1 & H2 & _ & H3 & H4).
  exists d'. repeat (split; [assumption|]). now apply H4.
Defined.

(** ** Implicit-size notifications under an override *)

Lemma resizeAll_alter_commute (f : QQuickItem → QQuickItem) w items p h :
  (∀ it, resized w (f it) = f (resized w it)) →
  resizeAll w items (alter f p h) = alter f p (resizeAll w items h).
Proof.
  intros Hf. apply map_eq. intros q.
  rewrite resizeAll_lookup. destruct (decide (p = q)) as [->|Hne].
  - rewrite !lookup_alter_eq, resizeAll_lookup.
    destruct (decide (q ∈ items)); [|reflexivity].
    destruct (h !! q); cbn; [now rewrite Hf|reflexivity].
  - rewrite !lookup_alter_ne by exact Hne. now rewrite resizeAll_lookup.
Qed.

Lemma measurePtr_fold_alter_width v p h l m m2 :
  maxHeight m2 = maxHeight m → reservedWidth m2 = reservedWidth m →
  resizableItems m2 = resizableItems m →
  let r2 := fold_left (measurePtr (alter (item_set_implicitWidth v) p h)) l m2 in
  let r := fold_left (measurePtr h) l m in
  maxHeight r2 = maxHeight r ∧ reservedWidth r2 = reservedWidth r
  ∧ resizableItems r2 = resizableItems r.
Proof.
  revert m m2. induction l as [|q l IH]; intros m m2 H1 H2 H3; [now cbn|].
  cbn [fold_left]. apply IH; unfold measurePtr;
    (destruct (decide (p = q)) as [->|Hne];
     [rewrite lookup_alter_eq|rewrite lookup_alter_ne by exact Hne]);
    destruct (h !! q) as [it|]; cbn; try assumption;
    unfold accumulate; cbn; destruct (widthValid it); cbn; congruence.
Qed.

Lemma measurePtr_fold_alter_height v p h l m m2 :
  totalWidth m2 = totalWidth m → reservedWidth m2 = reservedWidth m →
  resizableItems m2 = resizableItems m →
  let r2 := fold_left (measurePtr (alter (item_set_implicitHeight v) p h)) l m2 in
  let r := fold_left (measurePtr h) l m in
  totalWidth r2 = totalWidth r ∧ reservedWidth r2 = reservedWidth r
  ∧ resizableItems r2 = resizableItems r.
Proof.
  revert m m2. induction l as [|q l IH]; intros m m2 H1 H2 H3; [now cbn|].
  cbn [fold_left]. apply IH; unfold measurePtr;
    (destruct (decide (p = q)) as [->|Hne];
     [rewrite lookup_alter_eq|rewrite lookup_alter_ne by exact Hne]);
    destruct (h !! q) as [it|]; cbn; try assumption;
    unfold accumulate; cbn; destruct (widthValid it); cbn; congruence.
Qed.

Lemma publish_set_heap tw mh h d :
  publishContentSize tw mh (set_heap h d)
  = set_heap h (publishContentSize tw mh d).
Proof. publish_cases d; reflexivity. Qed.

Lemma publish_any_width tw tw' mh d :
  hasContentWidth d = true →
  publishContentSize tw mh d = publishContentSize tw' mh d.
Proof. intros H. unfold publishContentSize. now rewrite H. Qed.

Lemma publish_any_height tw mh mh' d :
  hasContentHeight d = true →
  publishContentSize tw mh d = publishContentSize tw mh' d.
Proof.
  intros H. unfold publishContentSize.
  destruct (negb (hasContentWidth d) && _); cbn; now rewrite H.
Qed.

Lemma applyResize_alter (f : QQuickItem → QQuickItem) w items p d :
  (∀ it, resized w (f it) = f (resized w it)) →
  applyResize w items (set_heap (alter f p (heap d)) d)
  = set_heap (alter f p (heap (applyResize w items d)))
      (applyResize w items d).
Proof.
  intros Hf. destruct items as [|q r]; [now destruct d|].
  unfold applyResize. set (items := q :: r).
  change (set_updatingLayout false
            (set_heap (resizeAll w items (alter f p (heap d))) d)
          = set_updatingLayout false
              (set_heap (alter f p (resizeAll w items (heap d))) d)).
  now rewrite resizeAll_alter_commute.
Qed.

Lemma resized_implicitWidth w v it :
  resized w (item_set_implicitWidth v it)
  = item_set_implicitWidth v (resized w it).
Proof. unfold resized. cbn. now destruct (Qeq_bool (width it) w). Qed.

Lemma resized_implicitHeight w v it :
  resized w (item_set_implicitHeight v it)
  = item_set_implicitHeight v (resized w it).
Proof. unfold resized. cbn. now destruct (Qeq_bool (width it) w). Qed.

Lemma layout_implicitWidth_commute v p d :
  hasContentWidth d = true →
  layout (set_heap (alter (item_set_implicitWidth v) p (heap d)) d)
  = set_heap (alter (item_set_implicitWidth v) p (heap (layout d)))
      (layout d).
Proof.
  intros Hw. set (f := item_set_implicitWidth v).
  set (d2 := set_heap (alter f p (heap d)) d).
  destruct (Z.leb_spec (count d) 0) as [Hc|Hc].
  { rewrite (layout_idle d) by (now left).
    apply layout_idle. now left. }
  destruct (contentItem d) as [cw|] eqn:Hi.
  2:{ rewrite (layout_idle d) by (now right). apply layout_idle. now right. }
  rewrite (layout_work d2 cw) by assumption.
  rewrite (layout_work d cw) by assumption.
  destruct (measurePtr_fold_alter_width v p (heap d) (contentModel d)
              measure0 measure0 eq_refl eq_refl eq_refl) as (Hm & Hr & Hi').
  fold f in Hm, Hr, Hi'.
  change (fold_left (measurePtr (alter f p (heap d))) (contentModel d) measure0)
    with (fold_left (measurePtr (heap d2)) (contentModel d2) measure0)
    in Hm, Hr, Hi'.
  rewrite <- !measure_fold in Hm, Hr, Hi'.
  assert (Hrs : resizedState cw d2
                = set_heap (alter f p (heap (resizedState cw d)))
                    (resizedState cw d)).
  { unfold resizedState, itemWidth. rewrite Hr, Hi'.
    change (totalSpacing d2) with (totalSpacing d).
    apply applyResize_alter. intros it. apply resized_implicitWidth. }
  rewrite Hrs, Hm, publish_set_heap, publish_heap.
  f_equal. apply publish_any_width.
  now rewrite resizedState_hasContentWidth.
Qed.

Lemma layout_implicitHeight_commute v p d :
  hasContentHeight d = true →
  layout (set_heap (alter (item_set_implicitHeight v) p (heap d)) d)
  = set_heap (alter (item_set_implicitHeight v) p (heap (layout d)))
      (layout d).
Proof.
  intros Hw. set (f := item_set_implicitHeight v).
  set (d2 := set_heap (alter f p (heap d)) d).
  destruct (Z.leb_spec (count d) 0) as [Hc|Hc].
  { rewrite (layout_idle d) by (now left).
    apply layout_idle. now left. }
  destruct (contentItem d) as [cw|] eqn:Hi.
  2:{ rewrite (layout_idle d) by (now right). apply layout_idle. now right. }
  rewrite (layout_work d2 cw) by assumption.
  rewrite (layout_work d cw) by assumption.
  destruct (measurePtr_fold_alter_height v p (heap d) (contentModel d)
              measure0 measure0 eq_refl eq_refl eq_refl) as (Hm & Hr & Hi').
  fold f in Hm, Hr, Hi'.
  change (fold_left (measurePtr (alter f p (heap d))) (contentModel d) measure0)
    with (fold_left (measurePtr (heap d2)) (contentModel d2) measure0)
    in Hm, Hr, Hi'.
  rewrite <- !measure_fold in Hm, Hr, Hi'.
  assert (Hrs : resizedState cw d2
                = set_heap (alter f p (heap (resizedState cw d)))
                    (resizedState cw d)).
  { unfold resizedState, itemWidth. rewrite Hr, Hi'.
    change (totalSpacing d2) with (totalSpacing d).
    apply applyResize_alter. intros it. apply resized_implicitHeight. }
  rewrite Hrs, Hm, publish_set_heap, publish_heap.
  f_equal. apply publish_any_height.
  now rewrite resizedState_hasContentHeight.
Qed.

(** X10. Skipping the layout is sound.  In a control that
    [updateLayout] leaves unchanged and whose content width is
    overridden, let the implicit width of any child change:
    [itemImplicitWidthChanged] returns the new state without running the
    layout, and a run of [updateLayout] on it would not have changed it
    either.  The same holds for the implicit height under an overridden
    content height. *)
Theorem implicit_size_skip_sound (n : nat) (d : TabBar) (p : nat) (v : Q) :
  updateLayout (S n) d = Some d →
  (hasContentWidth d = true →
   let d2 := set_heap (alter (item_set_implicitWidth v) p (heap d)) d in
   itemImplicitWidthChanged (S n) p d2 = Some d2
   ∧ updateLayout (S n) d2 = Some d2)
  ∧ (hasContentHeight d = true →
     let d2 := set_heap (alter (item_set_implicitHeight v) p (heap d)) d in
     itemImplicitHeightChanged (S n) p d2 = Some d2
     ∧ updateLayout (S n) d2 = Some d2).
Proof.
  intros Hs. rewrite updateLayout_layout in Hs. apply (inj Some) in Hs.
  split; intros Hf d2; subst d2.
  - split.
    + unfold itemImplicitWidthChanged.
      cbn [hasContentWidth set_heap]. rewrite Hf.
      now rewrite andb_false_r.
    + rewrite updateLayout_layout, layout_implicitWidth_commute by exact Hf.
      now rewrite Hs.
  - split.
    + unfold itemImplicitHeightChanged.
      cbn [hasContentHeight set_heap]. rewrite Hf.
      now rewrite andb_false_r.
    + rewrite updateLayout_layout, layout_implicitHeight_commute by exact Hf.
      now rewrite Hs.
Qed.

Lemma overriddenBar_settled : updateLayout 1 overriddenBar = Some overriddenBar.
Proof.
  rewrite updateLayout_layout. unfold overriddenBar. cbn [step].
  now rewrite layout_idemp.
Qed.

Lemma implicit_size_skip_sound_witness :
  updateLayout 1 overriddenBar = Some overriddenBar
  ∧ hasContentWidth overriddenBar = true
  ∧ let d2 := set_heap (alter (item_set_implicitWidth 500) 2%nat
                          (heap overriddenBar)) overriddenBar in
    itemImplicitWidthChanged 1 2 d2 = Some d2 ∧ updateLayout 1 d2 = Some d2.
Proof.
  split; [exact overriddenBar_settled|]. split; [reflexivity|].
  apply (proj1 (implicit_size_skip_sound 0 overriddenBar 2 500
                  overriddenBar_settled)).
  reflexivity.
Defined.

(** ** Edge cases of the layout *)

(** X9. The entry points that call [updateLayout] directly do not look
    at the guard, and [updateLayout] lowers the guard rather than
    restoring what it found: entered with the guard up, on a control with
    a content item and a resizable child, [updatePolish] and
    [geometryChanged] run the layout and return with the guard down,
    whereas [itemGeometryChanged] returns the state as it is. *)
Theorem direct_calls_ignore_guard (n : nat) (d : TabBar) (p : nat) :
  updatingLayout d = true →
  is_Some (contentItem d) →
  p ∈ resizableItems (measure d) →
  itemGeometryChanged (S n) p d = Some d
  ∧ ∃ d', updatePolish (S n) d = Some d'
          ∧ geometryChanged (S n) d = Some d'
          ∧ updatingLayout d' = false.
Proof.
  intros Hu [cw Hi] Hin. split.
  - unfold itemGeometryChanged. now rewrite Hu.
  - exists (layout d). unfold updatePolish, geometryChanged.
    rewrite updateLayout_layout. split; [reflexivity|].
    split; [reflexivity|].
    assert (Hc : (0 < count d)%Z).
    { apply elem_of_resizableItems in Hin as [Hin _]. unfold count.
      destruct (contentModel d); [now apply not_elem_of_nil in Hin|].
      cbn. lia. }
    rewrite (layout_work d cw Hc Hi), publish_updatingLayout.
    unfold resizedState, applyResize.
    destruct (resizableItems (measure d));
      [now apply not_elem_of_nil in Hin|reflexivity].
Qed.

Lemma direct_calls_ignore_guard_witness :
  updatingLayout guardedBar = true
  ∧ is_Some (contentItem guardedBar)
  ∧ (1%nat ∈ resizableItems (measure guardedBar))
  ∧ itemGeometryChanged 1 1 guardedBar = Some guardedBar
  ∧ ∃ d', updatePolish 1 guardedBar = Some d' ∧ updatingLayout d' = false.
Proof.
  assert (Hin : 1%nat ∈ resizableItems (measure guardedBar)).
  { apply list_elem_of_In. vm_compute. auto. }
  assert (Hi : is_Some (contentItem guardedBar)) by (eexists; reflexivity).
  split; [reflexivity|]. split; [exact Hi|]. split; [exact Hin|].
  destruct (direct_calls_ignore_guard 0 guardedBar 1 eq_refl Hi Hin)
    as (H1 & d' & H2 & _ & H3).
  split; [exact H1|]. exists d'. split; assumption.
Defined.

(** ** The setters of the facade *)

(** X7. [setPosition] stores the position it is given, emits
    [positionChanged] exactly when the stored position changed, touches
    nothing else, and called again with the same position returns the
    state as it is. *)
Theorem setPosition_spec (p : Position) (d : TabBar) :
  position (setPosition p d) = p
  ∧ announced position PositionChanged d (setPosition p d)
  ∧ set_emitted (emitted (setPosition p d)) (set_position p d)
    = setPosition p d
  ∧ setPosition p (setPosition p d) = setPosition p d.
Proof.
  unfold setPosition. destruct (decide (position d = p)) as [E|E].
  - rewrite decide_True by exact E.
    split; [exact E|]. split; [apply announced_refl|].
    split; [|reflexivity]. subst p. now destruct d.
  - split; [reflexivity|]. split; [|split; [reflexivity|]].
    + right. split; [|reflexivity]. intros H. apply E. symmetry. exact H.
    + now rewrite decide_True by reflexivity.
Qed.


(** * The layout in double arithmetic: verification *)

Section DoubleLayout.

Import F64.

(** ** The arithmetic *)

(** The arithmetic on well-known values: the double nearest to [1/10];
    [0.1 + 0.2], which is not the double nearest to [3/10]; ties rounded
    to the even neighbour; the largest double, doubled; half the smallest
    subnormal; an infinity less itself, and what the tolerant comparison
    makes of it; the tolerant comparison next to 1 and next to 0, where
    it accepts 0 only. *)
Lemma double_arithmetic_examples :
  round (1 # 10) = Finite (3602879701896397 # 36028797018963968)
  ∧ fadd (round (1 # 10)) (round (2 # 10))
    = Finite (1351079888211149 # 4503599627370496)
  ∧ round (3 # 10) = Finite (5404319552844595 # 18014398509481984)
  ∧ of_int (2 ^ 53 + 1) = Finite (inject_Z (2 ^ 53))
  ∧ of_int (2 ^ 53 + 3) = Finite (inject_Z (2 ^ 53 + 4))
  ∧ fadd (Finite (inject_Z (2 ^ 1024 - 2 ^ 971)))
         (Finite (inject_Z (2 ^ 1024 - 2 ^ 971))) = Infinite false
  ∧ fdiv (Finite (1 # (2 ^ 1074))) (Finite 2) = Finite 0
  ∧ fsub (Infinite false) (Infinite false) = NaN
  ∧ qFuzzyCompare (Infinite false) (Infinite false) = false
  ∧ qFuzzyCompare (Finite 1)
      (Finite (2251799813685473 # 2251799813685248)) = true
  ∧ qFuzzyCompare (Finite 0)
      (Finite (3961408125713217 # 39614081257132168796771975168)) = false.
Proof. vm_compute. repeat split. Qed.


Lemma qMin_same_f64 (a : double) : qMin a a = a.
Proof. unfold qMin. now destruct (flt a a). Qed.

Lemma fsub_same_f64 (q : Q) : fsub (Finite q) (Finite q) = Finite 0.
Proof.
  unfold fsub, fneg, fadd, round.
  assert (H : Qnum (q + - q) = 0%Z) by (destruct q; cbn; lia).
  now rewrite H.
Qed.

Lemma qAbs_nonneg_f64 (q : Q) : fle (Finite 0) (qAbs (Finite q)) = true.
Proof.
  unfold qAbs. cbn [fle]. destruct (Qle_bool 0 q) eqn:E; cbn [fle fneg].
  - exact E.
  - apply Qle_bool_iff.
    assert (H : ¬ (0 <= q)%Q) by (rewrite <- Qle_bool_iff; congruence).
    apply Qnot_le_lt in H. lra.
Qed.

(** The tolerant comparison recognises a finite value as itself. *)
Lemma qFuzzyCompare_refl_f64 (x : double) :
  isFinite x = true → qFuzzyCompare x x = true.
Proof.
  destruct x as [q| |]; try discriminate. intros _.
  unfold qFuzzyCompare. rewrite fsub_same_f64, qMin_same_f64.
  change (fmul (qAbs (Finite 0)) (Finite 1000000000000)) with (Finite 0).
  apply qAbs_nonneg_f64.
Qed.

(** It does not recognise an infinity or a NaN: their difference with
    themselves is a NaN. *)
Lemma qFuzzyCompare_irrefl_f64 (x : double) :
  isFinite x = false → qFuzzyCompare x x = false.
Proof. destruct x as [q|[]|]; [discriminate|reflexivity..]. Qed.

(** ** The width-assignment loop under the guard *)


Lemma setWidth_clear_f64 gc p w d :
  guarded gc → updatingLayout d = true →
  (d1 ← setWidth gc p w d; Some (clearWidthValid p d1))
  = Some (set_heap (alter (resized w) p (heap d)) d).
Proof.
  intros Hg Hu. unfold setWidth, resized.
  destruct (isNaN w) eqn:En; [reflexivity|]. cbn [orb].
  destruct (heap d !! p) as [it|] eqn:Hp.
  - rewrite <- (alter_of_lookup
                  (λ it, item_set_widthValid false
                           (if feq (width it) w then it
                            else item_set_width w it)) p it) by exact Hp.
    destruct (feq (width it) w) eqn:E; [|rewrite Hg by exact Hu];
      unfold clearWidthValid; cbn; rewrite alter_insert_eq; reflexivity.
  - unfold clearWidthValid. cbn. rewrite !alter_of_miss by exact Hp.
    reflexivity.
Qed.

Lemma assignWidths_guarded_f64 gc w items d :
  guarded gc → updatingLayout d = true →
  assignWidths gc w items d = Some (set_heap (resizeAll w items (heap d)) d).
Proof.
  intros Hg. revert d. induction items as [|p rest IH]; intros d Hu.
  - cbn. now destruct d.
  - cbn [assignWidths resizeAll fold_left].
    pose proof (setWidth_clear_f64 gc p w d Hg Hu) as Hs.
    destruct (setWidth gc p w d) as [d1|]; [|discriminate Hs].
    change (Some (clearWidthValid p d1)
            = Some (set_heap (alter (resized w) p (heap d)) d)) in Hs.
    apply (inj Some) in Hs.
    change (assignWidths gc w rest (clearWidthValid p d1)
            = Some (set_heap (resizeAll w rest (alter (resized w) p (heap d))) d)).
    rewrite Hs, IH by exact Hu. reflexivity.
Qed.


(** ** [updateLayout] as a function of the state *)

Lemma resizeItems_guarded_f64 gc cw d :
  guarded gc → resizeItems gc cw d = Some (resizedState cw d).
Proof.
  intros Hg. unfold resizeItems, resizedState, applyResize.
  destruct (resizableItems (measure d)) as [|p rest]; [reflexivity|].
  rewrite assignWidths_guarded_f64 by (exact Hg || reflexivity). reflexivity.
Qed.

(** One activation is all it takes, in this arithmetic too. *)
Lemma updateLayout_layout_f64 (n : nat) (d : TabBar) :
  updateLayout (S n) d = Some (layout d).
Proof.
  cbn [updateLayout]. unfold updateLayout_body, layout.
  destruct (count d <=? 0)%Z; [reflexivity|].
  destruct (contentItem d) as [cw|]; [|reflexivity].
  rewrite resizeItems_guarded_f64; [reflexivity|].
  intros p d' Hu. now rewrite Hu.
Qed.

(** ** The measuring loop, read off the collection *)

Lemma measure_loop_f64 d pre l m :
  contentModel d = pre ++ l →
  fold_left (measureItem d) (seq (length pre) (length l)) m
  = fold_left (measurePtr (heap d)) l m.
Proof.
  revert pre m. induction l as [|p r IH]; intros pre m Hc; [reflexivity|].
  cbn [length seq fold_left].
  assert (Hi : measureItem d m (length pre) = measurePtr (heap d) m p).
  { unfold measureItem, measurePtr, itemAt.
    rewrite Hc, list_lookup_middle by reflexivity. cbn.
    now destruct (heap d !! p). }
  rewrite Hi.
  replace (S (length pre)) with (length (pre ++ [p]))
    by (rewrite length_app; cbn; lia).
  apply IH. now rewrite <- app_assoc.
Qed.

Lemma measure_fold_f64 d :
  measure d = fold_left (measurePtr (heap d)) (contentModel d) measure0.
Proof. unfold measure. now apply (measure_loop_f64 d []). Qed.





(** ** Frame properties of the pieces of [updateLayout] *)

Ltac publish_cbn_f64 :=
  cbn [heap contentModel contentItem spacing updatingLayout hasContentWidth
       hasContentHeight contentWidth contentHeight emitted set_contentWidth
       set_contentHeight set_emitted set_heap set_updatingLayout negb andb].

Ltac publish_cases_f64 d :=
  unfold publishContentSize, emit;
  destruct d as [? ? ? ? ? hcw hch ? ? ?]; publish_cbn_f64;
  destruct hcw, hch; publish_cbn_f64;
  repeat match goal with
         | |- context [qFuzzyCompare ?a ?b] =>
             destruct (qFuzzyCompare a b) eqn:?; publish_cbn_f64
         end.













(** ** The inputs of the layout survive it *)





Lemma resizedState_fields_f64 cw d :
  contentModel (resizedState cw d) = contentModel d
  ∧ contentItem (resizedState cw d) = contentItem d
  ∧ spacing (resizedState cw d) = spacing d
  ∧ hasContentWidth (resizedState cw d) = hasContentWidth d
  ∧ hasContentHeight (resizedState cw d) = hasContentHeight d
  ∧ heap (resizedState cw d)
    = resizeAll (itemWidth d cw) (resizableItems (measure d)) (heap d).
Proof.
  unfold resizedState, applyResize.
  now destruct (resizableItems (measure d)).
Qed.

Lemma resizedState_published_f64 cw d :
  contentWidth (resizedState cw d) = contentWidth d
  ∧ contentHeight (resizedState cw d) = contentHeight d
  ∧ emitted (resizedState cw d) = emitted d.
Proof.
  unfold resizedState, applyResize.
  now destruct (resizableItems (measure d)).
Qed.

Lemma layout_work_f64 d cw :
  (0 < count d)%Z → contentItem d = Some cw →
  layout d
  = publishContentSize (derivedWidth d) (derivedHeight d) (resizedState cw d).
Proof.
  intros Hc Hi. unfold layout. rewrite Hi.
  destruct (Z.leb_spec (count d) 0); [lia|reflexivity].
Qed.



(** ** The claims that depend on the rounding *)







(** ** Further properties of the code, in double arithmetic *)

Lemma fle_refl_f64 (a : double) : isNaN a = false → fle a a = true.
Proof.
  destruct a as [q|[]|]; cbn; intros H; try reflexivity; [|discriminate H].
  apply Qle_bool_iff. apply Qle_refl.
Qed.

Lemma fle_trans_f64 (a b c : double) :
  fle a b = true → fle b c = true → fle a c = true.
Proof.
  destruct a as [x|[]|], b as [y|[]|], c as [z|[]|]; cbn;
    try reflexivity; try discriminate.
  rewrite !Qle_bool_iff. apply Qle_trans.
Qed.

Lemma fle_total_f64 (a b : double) :
  isNaN a = false → isNaN b = false → flt a b = false → fle b a = true.
Proof.
  destruct a as [x|[]|], b as [y|[]|]; cbn; try reflexivity;
    try discriminate; intros _ _ H; now apply negb_false_iff in H.
Qed.

Lemma flt_fle_f64 (a b : double) : flt a b = true → fle a b = true.
Proof.
  destruct a as [x|[]|], b as [y|[]|]; cbn; try reflexivity;
    try discriminate.
  rewrite negb_true_iff. intros H. apply Qle_bool_iff.
  assert (Hn : ¬ (y <= x)%Q) by (rewrite <- Qle_bool_iff; congruence).
  apply Qnot_le_lt in Hn. now apply Qlt_le_weak.
Qed.

Lemma flt_not_nan_f64 (a b : double) : flt a b = true → isNaN b = false.
Proof. destruct a as [x|[]|], b as [y|[]|]; cbn; congruence. Qed.

Lemma qMax_not_nan_f64 (a b : double) :
  isNaN a = false → isNaN (qMax a b) = false.
Proof.
  intros Ha. unfold qMax. destruct (flt a b) eqn:E; [|exact Ha].
  now apply flt_not_nan_f64 in E.
Qed.

Lemma qMax_left_f64 (a b : double) :
  isNaN a = false → fle a (qMax a b) = true.
Proof.
  intros Ha. unfold qMax. destruct (flt a b) eqn:E.
  - now apply flt_fle_f64.
  - now apply fle_refl_f64.
Qed.

Lemma qMax_right_f64 (a b : double) :
  isNaN a = false → isNaN b = false → fle b (qMax a b) = true.
Proof.
  intros Ha Hb. unfold qMax. destruct (flt a b) eqn:E.
  - now apply fle_refl_f64.
  - now apply fle_total_f64.
Qed.

Lemma measurePtr_maxHeight_f64 h m p :
  maxHeight (measurePtr h m p)
  = match h !! p with
    | Some it => qMax (maxHeight m) (implicitHeight it)
    | None => maxHeight m
    end.
Proof.
  unfold measurePtr. destruct (h !! p) as [it|]; [|reflexivity].
  unfold accumulate. now destruct (widthValid it).
Qed.

Lemma measurePtr_fold_maxHeight_f64 h l m :
  isNaN (maxHeight m) = false →
  isNaN (maxHeight (fold_left (measurePtr h) l m)) = false
  ∧ fle (maxHeight m) (maxHeight (fold_left (measurePtr h) l m)) = true
  ∧ (∀ p it, p ∈ l → h !! p = Some it → isNaN (implicitHeight it) = false →
       fle (implicitHeight it) (maxHeight (fold_left (measurePtr h) l m))
       = true)
  ∧ (maxHeight (fold_left (measurePtr h) l m) = maxHeight m
     ∨ ∃ p it, p ∈ l ∧ h !! p = Some it
               ∧ maxHeight (fold_left (measurePtr h) l m)
                 = implicitHeight it).
Proof.
  revert m. induction l as [|q r IH]; intros m Hm.
  - cbn. split; [exact Hm|]. split; [now apply fle_refl_f64|].
    split; [|now left]. intros p it Hp. now apply not_elem_of_nil in Hp.
  - cbn [fold_left].
    assert (Hq : isNaN (maxHeight (measurePtr h m q)) = false).
    { rewrite measurePtr_maxHeight_f64. destruct (h !! q); [|exact Hm].
      now apply qMax_not_nan_f64. }
    assert (Hle : fle (maxHeight m) (maxHeight (measurePtr h m q)) = true).
    { rewrite measurePtr_maxHeight_f64. destruct (h !! q).
      - now apply qMax_left_f64.
      - now apply fle_refl_f64. }
    destruct (IH (measurePtr h m q) Hq) as (I1 & I2 & I3 & I4).
    split; [exact I1|]. split; [now apply (fle_trans_f64 _ _ _ Hle)|].
    split.
    + intros p it Hp Hit Hn. apply elem_of_cons in Hp as [->|Hp].
      * apply (fle_trans_f64 _ (maxHeight (measurePtr h m q))); [|exact I2].
        rewrite measurePtr_maxHeight_f64, Hit. now apply qMax_right_f64.
      * now apply (I3 p it).
    + destruct I4 as [E|(p & it & Hp & Hit & E)].
      * rewrite E, measurePtr_maxHeight_f64.
        destruct (h !! q) as [it|] eqn:Hit; [|now left].
        unfold qMax. destruct (flt (maxHeight m) (implicitHeight it));
          [|now left].
        right. exists q, it. split; [left|]. now split.
      * right. exists p, it. split; [now right|]. now split.
Qed.

Lemma publish_height_f64 tw mh d :
  hasContentHeight d = false →
  contentHeight (publishContentSize tw mh d) = mh
  ∨ (contentHeight (publishContentSize tw mh d) = contentHeight d
     ∧ qFuzzyCompare (contentHeight d) mh = true).
Proof.
  publish_cases_f64 d; intros Hf;
    try match goal with
        | H : true = false |- _ => discriminate H
        | H : false = true |- _ => discriminate H
        end;
    auto.
Qed.

(** X16. In double arithmetic the content height [updateLayout]
    derives is never a NaN and never below 0; it bounds from above the
    implicit height of every child whose implicit height is not a NaN (a
    NaN loses every comparison of [qMax] and is skipped); it is 0 or the
    implicit height of one of the children.  Without an override, a run
    over a non-empty collection with a content item leaves it stored,
    unless the value stored before was fuzzy-equal to it and stays; the
    stored value is fuzzy-equal to the derived one when that is
    finite. *)
Theorem derived_content_height_double (n : nat) (d : TabBar) :
  isNaN (derivedHeight d) = false
  ∧ fle (Finite 0) (derivedHeight d) = true
  ∧ (∀ p it, p ∈ contentModel d → heap d !! p = Some it →
       isNaN (implicitHeight it) = false →
       fle (implicitHeight it) (derivedHeight d) = true)
  ∧ (derivedHeight d = Finite 0
     ∨ ∃ p it, p ∈ contentModel d ∧ heap d !! p = Some it
               ∧ derivedHeight d = implicitHeight it)
  ∧ ((0 < count d)%Z → is_Some (contentItem d) →
     hasContentHeight d = false →
     ∃ d', updateLayout (S n) d = Some d'
       ∧ (contentHeight d' = derivedHeight d
          ∨ (contentHeight d' = contentHeight d
             ∧ qFuzzyCompare (contentHeight d) (derivedHeight d) = true))
       ∧ (isFinite (derivedHeight d) = true →
          qFuzzyCompare (contentHeight d') (derivedHeight d) = true)).
Proof.
  destruct (measurePtr_fold_maxHeight_f64 (heap d) (contentModel d) measure0
              eq_refl) as (H1 & H2 & H3 & H4).
  rewrite <- measure_fold_f64 in H1, H2, H3, H4.
  change (maxHeight measure0) with (Finite 0) in H2, H4.
  fold (derivedHeight d) in H1, H2, H3, H4.
  split; [exact H1|]. split; [exact H2|]. split; [exact H3|].
  split; [exact H4|].
  intros Hc [cw Hi] Hf. exists (layout d).
  split; [apply updateLayout_layout_f64|].
  destruct (resizedState_fields_f64 cw d) as (_ & _ & _ & _ & Rhh & _).
  destruct (resizedState_published_f64 cw d) as (_ & Rh & _).
  rewrite (layout_work_f64 d cw Hc Hi).
  destruct (publish_height_f64 (derivedWidth d) (derivedHeight d)
              (resizedState cw d)) as [E|[E F]]; [now rewrite Rhh|..].
  - rewrite E. split; [now left|]. apply qFuzzyCompare_refl_f64.
  - rewrite E, Rh. rewrite Rh in F. split; [now right|]. intros _. exact F.
Qed.

(** X15. In double arithmetic [setContentWidth], called again with the
    value it was just given, returns the state as it is when the value is
    finite.  When the value is an infinity or a NaN and is the stored
    one, the call stores it once more and emits [contentWidthChanged]
    again.  The same holds for [setContentHeight]. *)
Theorem setContentSize_repeated (v : double) (d : TabBar) :
  (isFinite v = true →
   setContentWidth v (setContentWidth v d) = setContentWidth v d
   ∧ setContentHeight v (setContentHeight v d) = setContentHeight v d)
  ∧ (isFinite v = false →
     (contentWidth d = v →
      contentWidth (setContentWidth v d) = v
      ∧ emitted (setContentWidth v d) = ContentWidthChanged :: emitted d)
     ∧ (contentHeight d = v →
        contentHeight (setContentHeight v d) = v
        ∧ emitted (setContentHeight v d)
          = ContentHeightChanged :: emitted d)).
Proof.
  split.
  - intros Hv. pose proof (qFuzzyCompare_refl_f64 v Hv) as Hr. split.
    + unfold setContentWidth.
      change (contentWidth (set_hasContentWidth true d)) with (contentWidth d).
      destruct (qFuzzyCompare (contentWidth d) v) eqn:E.
      * cbn [contentWidth set_hasContentWidth]. now rewrite E.
      * cbn [contentWidth set_hasContentWidth set_contentWidth emit
             set_emitted]. now rewrite Hr.
    + unfold setContentHeight.
      change (contentHeight (set_hasContentHeight true d))
        with (contentHeight d).
      destruct (qFuzzyCompare (contentHeight d) v) eqn:E.
      * cbn [contentHeight set_hasContentHeight]. now rewrite E.
      * cbn [contentHeight set_hasContentHeight set_contentHeight emit
             set_emitted]. now rewrite Hr.
  - intros Hv. pose proof (qFuzzyCompare_irrefl_f64 v Hv) as Hr. split.
    + intros Hs. unfold setContentWidth.
      change (contentWidth (set_hasContentWidth true d)) with (contentWidth d).
      rewrite Hs, Hr. split; reflexivity.
    + intros Hs. unfold setContentHeight.
      change (contentHeight (set_hasContentHeight true d))
        with (contentHeight d).
      rewrite Hs, Hr. split; reflexivity.
Qed.

(** X15 at the three buttons: the owner sets the content width to
    infinity twice; each call emits [contentWidthChanged]. *)
Lemma setContentSize_repeated_witness :
  emitted unboundedBar = [ContentWidthChanged]
  ∧ contentWidth (setContentWidth (Infinite false) unboundedBar)
    = Infinite false
  ∧ emitted (setContentWidth (Infinite false) unboundedBar)
    = [ContentWidthChanged; ContentWidthChanged].
Proof.
  split; [vm_compute; reflexivity|].
  destruct (setContentSize_repeated (Infinite false) unboundedBar)
    as [_ H].
  destruct (H eq_refl) as [[H1 H2] _]; [vm_compute; reflexivity|].
  split; [exact H1|exact H2].
Defined.

End DoubleLayout.
